(** * Jira Cloud action: the dispatcher of [src/main.js] and its seven pipelines

    The action reads its inputs through [core.getInput], builds one JSON
    request per operation, sends it through an [HttpClient], checks the
    status code and reports through [core.setOutput] / [core.setFailed].

    The embedding follows the source function by function.  JavaScript
    values are an inductive type, plain objects are finite maps from
    property names to values, and the effects of the action (reading inputs,
    HTTP calls, outputs, failure marks, debug lines, exceptions) live in a
    small state-and-exception monad [Js] over a [World]. *)

From Stdlib Require Import ZArith Ascii String List Bool Lia.
From stdpp Require Import base option list strings pretty gmap fin_maps.

Local Open Scope Z_scope.
Local Set Warnings "-register-all".

(** ** JavaScript values *)

(** Numbers are the integers: the source only writes the literal [1] and
    compares and prints status codes.  An object is the finite map of its
    own properties. *)
Inductive value : Type :=
| VUndefined
| VNull
| VBool (b : bool)
| VNum (n : Z)
| VStr (s : string)
| VArr (items : list value)
| VObj (props : gmap string value).

(** [if (v)]: the falsy values are undefined, null, false, 0 and the empty
    string. *)
Definition truthy (v : value) : bool :=
  match v with
  | VUndefined | VNull => false
  | VBool b => b
  | VNum n => negb (n =? 0)
  | VStr s => negb (String.eqb s "")
  | VArr _ | VObj _ => true
  end.

(** [if (s)] for a string [s]. *)
Definition nonempty (s : string) : bool := negb (String.eqb s "").

(** [`${x}`] where [x] is a string or undefined. *)
Definition template (x : option string) : string := default "undefined" x.

(** [s.endsWith(suffix)]. *)
Definition endsWith (s suffix : string) : bool :=
  let n := String.length s in
  let m := String.length suffix in
  (m <=? n)%nat && String.eqb (substring (n - m) m s) suffix.

(** [s.slice(0, -1)]. *)
Definition slice_0_m1 (s : string) : string :=
  substring 0 (String.length s - 1) s.

(** The own enumerable properties copied by an object spread [{...v}]:
    all of them for an object, the indexed elements for an array, the
    indexed characters for a string, none for the other values. *)
Definition indexed {A} (f : A → value) (l : list A) : gmap string value :=
  list_to_map (imap (λ i x, (pretty i, f x)) l).

Definition own_properties (v : value) : gmap string value :=
  match v with
  | VObj props => props
  | VArr items => indexed id items
  | VStr s => indexed (λ c, VStr (String c "")) (list_ascii_of_string s)
  | _ => ∅
  end.

(** The property [name] of a value that is neither null nor undefined, for
    [name] among "key" and "id" (the two properties the action reads from a
    response body): an object yields its own property or undefined, every
    other value has no such property. *)
Definition property (v : value) (name : string) : value :=
  match v with
  | VObj props => default VUndefined (props !! name)
  | _ => VUndefined
  end.

(** The values a property cannot be read from. *)
Definition nullish (v : value) : bool :=
  match v with
  | VUndefined | VNull => true
  | _ => false
  end.

(** ** Exceptions *)

Record Error : Type := { message : string; stack : string }.

(** What a [throw] or a rejected promise carries: an instance of [Error]
    or anything else. *)
Inductive thrown : Type :=
| ThrowError (e : Error)
| ThrowValue (v : value).

(** ** The HTTP client, as [src/__fixtures__/http-client.js] shapes it *)

Record BasicCredentialHandler : Type := { username : string; password : string }.

Record HttpClient : Type :=
  { userAgent : string; handlers : list BasicCredentialHandler }.

Record Response : Type := { statusCode : Z; result : value }.

(** The three client methods the action calls, with their arguments. *)
Inductive Request : Type :=
| GetJson (url : string) (headers : gmap string string)
| PostJson (url : string) (body : value) (headers : gmap string string)
| PutJson (url : string) (body : value) (headers : gmap string string).

(** The promise a client method returns either resolves or rejects. *)
Inductive Reply : Type :=
| Resolve (r : Response)
| Reject (t : thrown).

Definition Exchange : Type := Request * Reply.

(** What a pipeline returns: [{issueKey, issueId, data}] where the first two
    properties are missing from some of the object literals. *)
Record OperationResult : Type :=
  { issueKey : option value; issueId : option value; data : value }.

(** [o.p] for a property the object literal may lack. *)
Definition prop (p : option value) : value := default VUndefined p.

(** ** The world the action runs in *)

(** [inputs] are the named inputs of the workflow step; [requests] the HTTP
    calls made so far with their replies, oldest first; [outputs], [failures]
    and [debugs] the calls of [core.setOutput], [core.setFailed] and
    [core.debug], oldest first. *)
Record World : Type :=
  { inputs : gmap string string;
    requests : list Exchange;
    outputs : list (string * value);
    failures : list string;
    debugs : list string }.

Definition initial (env : gmap string string) : World :=
  {| inputs := env; requests := []; outputs := []; failures := []; debugs := [] |}.

Definition add_request (x : Exchange) (w : World) : World :=
  {| inputs := inputs w; requests := requests w ++ [x]; outputs := outputs w;
     failures := failures w; debugs := debugs w |}.

Definition add_output (x : string * value) (w : World) : World :=
  {| inputs := inputs w; requests := requests w; outputs := outputs w ++ [x];
     failures := failures w; debugs := debugs w |}.

Definition add_failure (x : string) (w : World) : World :=
  {| inputs := inputs w; requests := requests w; outputs := outputs w;
     failures := failures w ++ [x]; debugs := debugs w |}.

Definition add_debug (x : string) (w : World) : World :=
  {| inputs := inputs w; requests := requests w; outputs := outputs w;
     failures := failures w; debugs := debugs w ++ [x] |}.

(** ** The monad of the action's code *)

Inductive Completion (A : Type) : Type :=
| Normal (a : A)
| Throw (t : thrown).
Arguments Normal {A} a.
Arguments Throw {A} t.

Definition Js (A : Type) : Type := World → Completion A * World.

(** A completion reached without touching the world. *)
Definition lift {A} (c : Completion A) : Js A := λ w, (c, w).

Definition ret {A} (a : A) : Js A := lift (Normal a).

Definition throw {A} (t : thrown) : Js A := lift (Throw t).

Definition bind {A B} (m : Js A) (k : A → Js B) : Js B :=
  λ w, match m w with
       | (Normal a, w') => k a w'
       | (Throw t, w') => (Throw t, w')
       end.

(** [try { m } catch (error) { handler error }]. *)
Definition try_catch {A} (m : Js A) (handler : thrown → Js A) : Js A :=
  λ w, match m w with
       | (Normal a, w') => (Normal a, w')
       | (Throw t, w') => handler t w'
       end.

Declare Scope js_scope.
Delimit Scope js_scope with js.
Notation "x <- m ;; k" := (bind m (λ x, k))
  (at level 100, m at next level, right associativity) : js_scope.
Notation "m ;; k" := (bind m (λ _, k))
  (at level 100, right associativity) : js_scope.
Notation "' p <- m ;; k" := (bind m (λ x, match x with p => k end))
  (at level 20, p pattern, m at level 99, k at level 200) : js_scope.
Local Open Scope js_scope.

(** ** The platform the action runs on *)

(** [JSON.parse] returns a value or throws a [SyntaxError] with a message. *)
Inductive ParseResult : Type :=
| Parsed (v : value)
| SyntaxError (msg : string).

(** The parts of the JavaScript runtime and of the network the action relies
    on and does not define: [JSON.parse]; [JSON.stringify], which yields
    undefined ([None]) or a string; the stack text an [Error] created with a
    given message captures; the reply of the remote service to a request
    of a client, given the exchanges that came before; and what the method
    of the client leaves in the headers object it was handed with that
    request (the client may write into it, or leave it as it is). *)
Class Platform : Type :=
  { JSON_parse : string → ParseResult;
    JSON_stringify : value → option string;
    captureStackTrace : string → string;
    remote : HttpClient → list Exchange → Request → Reply;
    headers_after : HttpClient → list Exchange → Request → gmap string string }.

Section Action.
Context `{Platform}.

(** [new Error(msg)]; the [TypeError] of a failed property read is built the
    same way, being an instance of [Error] too. *)
Definition new_Error (msg : string) : Error :=
  {| message := msg; stack := captureStackTrace msg |}.

(** ** The runner's toolkit, [@actions/core] *)

(** The value of an input as the runner hands it over: the empty string
    when the workflow does not supply it. *)
Definition input (w : World) (name : string) : string :=
  default "" (inputs w !! name).

(** Modelled from the spec: [core.getInput] belongs to the runner's toolkit
    [@actions/core], whose code is not part of this repository.  It "returns
    a string, failing the whole run upstream if required and absent": an
    absent input reads as the empty string, and a required input that is
    empty throws. *)
Definition getInput (name : string) (required : bool) : Js string :=
  λ w, let val := input w name in
       lift (if required && negb (nonempty val)
             then Throw (ThrowError
                    (new_Error ("Input required and not supplied: " +:+ name)))
             else Normal val) w.

Definition setOutput (name : string) (v : value) : Js unit :=
  λ w, (Normal tt, add_output (name, v) w).

Definition setFailed (msg : string) : Js unit :=
  λ w, (Normal tt, add_failure msg w).

Definition debug (msg : string) : Js unit :=
  λ w, (Normal tt, add_debug msg w).

(** ** Calls of the HTTP client *)

(** [await client.method(..., headers)]: the exchange is recorded, and a
    rejected promise throws.  [headers] is one object, which [run] creates
    and every call of a pipeline is handed; the method of the client may
    write into it.  The request recorded holds the content of that object
    when the call is made.  A call that resolves yields the response
    together with the content of the object after the call, and a pipeline
    that calls again goes on with that content under the same name. *)
Definition call (client : HttpClient) (req : Request)
    : Js (Response * gmap string string) :=
  λ w, let reply := remote client (requests w) req in
       (match reply with
        | Resolve r => Normal (r, headers_after client (requests w) req)
        | Reject t => Throw t
        end, add_request (req, reply) w).

Definition getJson (client : HttpClient) (url : string)
    (headers : gmap string string) : Js (Response * gmap string string) :=
  call client (GetJson url headers).

Definition postJson (client : HttpClient) (url : string) (body : value)
    (headers : gmap string string) : Js (Response * gmap string string) :=
  call client (PostJson url body headers).

Definition putJson (client : HttpClient) (url : string) (body : value)
    (headers : gmap string string) : Js (Response * gmap string string) :=
  call client (PutJson url body headers).

(** [v.name]: reading from null or undefined throws a TypeError (with the
    wording of Node's engine), every other value yields [property v name]. *)
Definition member (v : value) (name : string) : Js value :=
  lift (if nullish v then
          Throw (ThrowError (new_Error
            ("Cannot read properties of "
             +:+ (if v is VNull then "null" else "undefined")
             +:+ " (reading '" +:+ name +:+ "')")))
        else Normal (property v name)).

(** [response.statusCode < 200 || response.statusCode >= 300]. *)
Definition rejected (response : Response) : bool :=
  (statusCode response <? 200) || (statusCode response >=? 300).

(** The block shared by [createIssue] and [updateIssue]:
    [if (fieldsJson) { try { body.fields = { ...body.fields,
    ...JSON.parse(fieldsJson) } } catch (error) { throw new Error(...) } }]. *)
Definition add_fields_json (fieldsJson : string) (fields : gmap string value)
    : Js (gmap string value) :=
  lift (if nonempty fieldsJson then
          match JSON_parse fieldsJson with
          | Parsed additionalFields =>
              Normal (own_properties additionalFields ∪ fields)
          | SyntaxError msg =>
              Throw (ThrowError (new_Error ("Invalid fields_json: " +:+ msg)))
          end
        else Normal fields).

(** ** The seven pipelines *)

Definition createIssue (client : HttpClient) (baseUrl : string)
    (headers : gmap string string) : Js OperationResult :=
  projectKey <- getInput "project_key" true ;;
  issueType <- getInput "issue_type" true ;;
  summary <- getInput "summary" true ;;
  description <- getInput "description" false ;;
  fieldsJson <- getInput "fields_json" false ;;
  let fields : gmap string value :=
    {[ "project" := VObj {[ "key" := VStr projectKey ]};
       "issuetype" := VObj {[ "name" := VStr issueType ]};
       "summary" := VStr summary ]} in
  let fields :=
    if nonempty description then <["description" := VStr description]> fields
    else fields in
  fields <- add_fields_json fieldsJson fields ;;
  let body := VObj {[ "fields" := VObj fields ]} in
  let url := baseUrl +:+ "/rest/api/3/issue" in
  debug ("Creating issue with URL: " +:+ url) ;;
  debug ("Request body: " +:+ template (JSON_stringify body)) ;;
  '(response, _) <- postJson client url body headers ;;
  if rejected response then
    throw (ThrowError (new_Error
      ("Failed to create issue: " +:+ pretty (statusCode response) +:+ " "
       +:+ template (JSON_stringify (result response)))))
  else
    key <- member (result response) "key" ;;
    id <- member (result response) "id" ;;
    ret {| issueKey := Some key; issueId := Some id; data := result response |}.

Definition updateIssue (client : HttpClient) (baseUrl : string)
    (headers : gmap string string) : Js OperationResult :=
  issueKey <- getInput "issue_key" true ;;
  description <- getInput "description" false ;;
  fieldsJson <- getInput "fields_json" false ;;
  let fields : gmap string value := ∅ in
  let fields :=
    if nonempty description then <["description" := VStr description]> fields
    else fields in
  fields <- add_fields_json fieldsJson fields ;;
  let body := VObj {[ "fields" := VObj fields ]} in
  let url := baseUrl +:+ "/rest/api/3/issue/" +:+ issueKey in
  debug ("Updating issue with URL: " +:+ url) ;;
  debug ("Request body: " +:+ template (JSON_stringify body)) ;;
  '(response, headers) <- putJson client url body headers ;;
  if rejected response then
    throw (ThrowError (new_Error
      ("Failed to update issue: " +:+ pretty (statusCode response) +:+ " "
       +:+ template (JSON_stringify (result response)))))
  else
    '(getResponse, _) <- getJson client url headers ;;
    id <- member (result getResponse) "id" ;;
    ret {| issueKey := Some (VStr issueKey); issueId := Some id;
           data := result getResponse |}.

Definition transitionIssue (client : HttpClient) (baseUrl : string)
    (headers : gmap string string) : Js OperationResult :=
  issueKey <- getInput "issue_key" true ;;
  transitionId <- getInput "transition_id" true ;;
  let body := VObj {[ "transition" := VObj {[ "id" := VStr transitionId ]} ]} in
  let url := baseUrl +:+ "/rest/api/3/issue/" +:+ issueKey +:+ "/transitions" in
  debug ("Transitioning issue with URL: " +:+ url) ;;
  debug ("Request body: " +:+ template (JSON_stringify body)) ;;
  '(response, headers) <- postJson client url body headers ;;
  if rejected response then
    throw (ThrowError (new_Error
      ("Failed to transition issue: " +:+ pretty (statusCode response) +:+ " "
       +:+ template (JSON_stringify (result response)))))
  else
    '(getResponse, _) <-
      getJson client (baseUrl +:+ "/rest/api/3/issue/" +:+ issueKey) headers ;;
    id <- member (result getResponse) "id" ;;
    ret {| issueKey := Some (VStr issueKey); issueId := Some id;
           data := result getResponse |}.

Definition addComment (client : HttpClient) (baseUrl : string)
    (headers : gmap string string) : Js OperationResult :=
  issueKey <- getInput "issue_key" true ;;
  comment <- getInput "comment" true ;;
  let body :=
    VObj {[ "body" := VObj {[
      "type" := VStr "doc";
      "version" := VNum 1;
      "content" := VArr [
        VObj {[ "type" := VStr "paragraph";
                "content" := VArr [
                  VObj {[ "type" := VStr "text"; "text" := VStr comment ]} ] ]} ] ]} ]} in
  let url := baseUrl +:+ "/rest/api/3/issue/" +:+ issueKey +:+ "/comment" in
  debug ("Adding comment with URL: " +:+ url) ;;
  debug ("Request body: " +:+ template (JSON_stringify body)) ;;
  '(response, _) <- postJson client url body headers ;;
  if rejected response then
    throw (ThrowError (new_Error
      ("Failed to add comment: " +:+ pretty (statusCode response) +:+ " "
       +:+ template (JSON_stringify (result response)))))
  else
    ret {| issueKey := Some (VStr issueKey); issueId := None;
           data := result response |}.

Definition getIssue (client : HttpClient) (baseUrl : string)
    (headers : gmap string string) : Js OperationResult :=
  issueKey <- getInput "issue_key" true ;;
  let url := baseUrl +:+ "/rest/api/3/issue/" +:+ issueKey in
  debug ("Getting issue with URL: " +:+ url) ;;
  '(response, _) <- getJson client url headers ;;
  if rejected response then
    throw (ThrowError (new_Error
      ("Failed to get issue: " +:+ pretty (statusCode response) +:+ " "
       +:+ template (JSON_stringify (result response)))))
  else
    id <- member (result response) "id" ;;
    ret {| issueKey := Some (VStr issueKey); issueId := Some id;
           data := result response |}.

Definition getProject (client : HttpClient) (baseUrl : string)
    (headers : gmap string string) : Js OperationResult :=
  projectKey <- getInput "project_key" true ;;
  let url := baseUrl +:+ "/rest/api/3/project/" +:+ projectKey in
  debug ("Getting project with URL: " +:+ url) ;;
  '(response, _) <- getJson client url headers ;;
  if rejected response then
    throw (ThrowError (new_Error
      ("Failed to get project: " +:+ pretty (statusCode response) +:+ " "
       +:+ template (JSON_stringify (result response)))))
  else
    ret {| issueKey := None; issueId := None; data := result response |}.

Definition createVersion (client : HttpClient) (baseUrl : string)
    (headers : gmap string string) : Js OperationResult :=
  projectId <- getInput "project_id" true ;;
  versionName <- getInput "version_name" true ;;
  description <- getInput "version_description" false ;;
  archived_in <- getInput "version_archived" false ;;
  let archived := VBool (String.eqb archived_in "true") in
  released_in <- getInput "version_released" false ;;
  let released := VBool (String.eqb released_in "true") in
  startDate <- getInput "version_start_date" false ;;
  releaseDate <- getInput "version_release_date" false ;;
  let body : gmap string value :=
    {[ "name" := VStr versionName; "projectId" := VStr projectId ]} in
  let body :=
    if nonempty description then <["description" := VStr description]> body
    else body in
  let body :=
    match archived with VUndefined => body | _ => <["archived" := archived]> body end in
  let body :=
    match released with VUndefined => body | _ => <["released" := released]> body end in
  let body :=
    if nonempty startDate then <["startDate" := VStr startDate]> body else body in
  let body :=
    if nonempty releaseDate then <["releaseDate" := VStr releaseDate]> body
    else body in
  let url := baseUrl +:+ "/rest/api/3/version" in
  debug ("Creating version with URL: " +:+ url) ;;
  debug ("Request body: " +:+ template (JSON_stringify (VObj body))) ;;
  '(response, _) <- postJson client url (VObj body) headers ;;
  if rejected response then
    throw (ThrowError (new_Error
      ("Failed to create version: " +:+ pretty (statusCode response) +:+ " "
       +:+ template (JSON_stringify (result response)))))
  else
    ret {| issueKey := None; issueId := None; data := result response |}.

(** ** The dispatcher *)

(** The [switch (operation)] of [run]. *)
Definition dispatch (operation : string) (client : HttpClient) (baseUrl : string)
    (headers : gmap string string) : Js OperationResult :=
  if String.eqb operation "create_issue" then createIssue client baseUrl headers
  else if String.eqb operation "update_issue" then updateIssue client baseUrl headers
  else if String.eqb operation "transition_issue" then
    transitionIssue client baseUrl headers
  else if String.eqb operation "add_comment" then addComment client baseUrl headers
  else if String.eqb operation "get_issue" then getIssue client baseUrl headers
  else if String.eqb operation "get_project" then getProject client baseUrl headers
  else if String.eqb operation "create_version" then
    createVersion client baseUrl headers
  else throw (ThrowError (new_Error ("Unsupported operation: " +:+ operation))).

(** The body of the [try] block of [run], up to the value of [response]. *)
Definition run_operation : Js OperationResult :=
  jiraBaseUrl <- getInput "jira_base_url" true ;;
  jiraEmail <- getInput "jira_email" true ;;
  jiraApiToken <- getInput "jira_api_token" true ;;
  operation <- getInput "operation" true ;;
  let auth := {| username := jiraEmail; password := jiraApiToken |} in
  let client := {| userAgent := "node-jira-cloud-action"; handlers := [auth] |} in
  let baseUrl :=
    if endsWith jiraBaseUrl "/" then slice_0_m1 jiraBaseUrl else jiraBaseUrl in
  let headers : gmap string string :=
    {[ "Content-Type" := "application/json"; "Accept" := "application/json" ]} in
  dispatch operation client baseUrl headers.

(** The "Set outputs" part of the [try] block. *)
Definition set_outputs (response : OperationResult) : Js unit :=
  setOutput "status" (VStr "success") ;;
  (if truthy (prop (issueKey response))
   then setOutput "issue_key" (prop (issueKey response)) else ret tt) ;;
  (if truthy (prop (issueId response))
   then setOutput "issue_id" (prop (issueId response)) else ret tt) ;;
  setOutput "response"
    (match JSON_stringify (data response) with
     | Some s => VStr s
     | None => VUndefined
     end).

(** The [catch (error)] block. *)
Definition on_error (error : thrown) : Js unit :=
  setOutput "status" (VStr "error") ;;
  match error with
  | ThrowError e =>
      setFailed (message e) ;;
      debug ("Error stack: " +:+ stack e)
  | ThrowValue _ => setFailed "An unknown error occurred"
  end.

(** The whole [try] block. *)
Definition try_block : Js unit :=
  response <- run_operation ;;
  set_outputs response.

Definition run : Js unit := try_catch try_block on_error.

End Action.

(** ** A concrete platform, after the mocks of the test suite *)

Module Fixture.

Definition dquote : ascii := ascii_of_nat 34.
Definition backslash : ascii := ascii_of_nat 92.

(** Test data is written with single quotes; [dq] turns them into the
    double quotes of JSON. *)
Fixpoint dq (s : string) : string :=
  match s with
  | EmptyString => EmptyString
  | String c s' => String (if Ascii.eqb c "'" then dquote else c) (dq s')
  end.

(** *** A serializer standing for [JSON.stringify] *)

Fixpoint escape (s : string) : string :=
  match s with
  | EmptyString => EmptyString
  | String c s' =>
      if Ascii.eqb c dquote || Ascii.eqb c backslash
      then String backslash (String c (escape s'))
      else String c (escape s')
  end.

Definition quote (s : string) : string :=
  String dquote (escape s +:+ String dquote EmptyString).

Fixpoint join (sep : string) (l : list string) : string :=
  match l with
  | [] => EmptyString
  | [x] => x
  | x :: l' => x +:+ sep +:+ join sep l'
  end.

(** Properties are printed in the order of the finite map; an undefined
    property is skipped, an undefined array element prints as null. *)
Fixpoint stringify (v : value) : option string :=
  match v with
  | VUndefined => None
  | VNull => Some "null"
  | VBool b => Some (if b then "true" else "false")
  | VNum n => Some (pretty n)
  | VStr s => Some (quote s)
  | VArr items =>
      Some ("[" +:+ join "," (map (λ x, default "null" (stringify x)) items) +:+ "]")
  | VObj props =>
      Some ("{" +:+ join ","
              (map_fold (λ k x acc,
                 match stringify x with
                 | Some s => (quote k +:+ ":" +:+ s) :: acc
                 | None => acc
                 end) [] props) +:+ "}")
  end.

(** *** A parser standing for [JSON.parse] *)

Definition is_space (c : ascii) : bool :=
  Ascii.eqb c " " || Ascii.eqb c (ascii_of_nat 9)
  || Ascii.eqb c (ascii_of_nat 10) || Ascii.eqb c (ascii_of_nat 13).

Fixpoint skip_space (s : string) : string :=
  match s with
  | String c s' => if is_space c then skip_space s' else s
  | EmptyString => EmptyString
  end.

(** The characters up to the closing quote, and what follows it. *)
Fixpoint string_body (s : string) : option (string * string) :=
  match s with
  | EmptyString => None
  | String c s' =>
      if Ascii.eqb c dquote then Some (EmptyString, s')
      else if Ascii.eqb c backslash then
        match s' with
        | String e s'' =>
            if Ascii.eqb e dquote || Ascii.eqb e backslash || Ascii.eqb e "/"
            then '(body, rest) ← string_body s''; Some (String e body, rest)
            else None
        | EmptyString => None
        end
      else '(body, rest) ← string_body s'; Some (String c body, rest)
  end.

Definition digit (c : ascii) : option Z :=
  let n := nat_of_ascii c in
  if (48 <=? n)%nat && (n <=? 57)%nat then Some (Z.of_nat (n - 48)) else None.

Fixpoint digits (acc : Z) (s : string) : Z * string :=
  match s with
  | String c s' =>
      match digit c with
      | Some d => digits (10 * acc + d) s'
      | None => (acc, s)
      end
  | EmptyString => (acc, s)
  end.

Definition number (s : string) : option (Z * string) :=
  match s with
  | String c s' =>
      if Ascii.eqb c "-" then
        match s' with
        | String c' _ =>
            match digit c' with
            | Some _ => let '(n, rest) := digits 0 s' in Some (- n, rest)
            | None => None
            end
        | EmptyString => None
        end
      else match digit c with
           | Some _ => Some (digits 0 s)
           | None => None
           end
  | EmptyString => None
  end.

Definition literal (word : string) (v : value) (s : string)
    : option (value * string) :=
  if String.prefix word s
  then Some (v, substring (String.length word) (String.length s - String.length word) s)
  else None.

(** One value, then the rest of the text; [fuel] bounds the nesting and the
    number of elements. *)
Fixpoint parse_value (fuel : nat) (s : string) : option (value * string) :=
  match fuel with
  | O => None
  | S fuel =>
      match skip_space s with
      | String c s' =>
          if Ascii.eqb c "{" then
            match skip_space s' with
            | String "}" rest => Some (VObj ∅, rest)
            | _ => '(props, rest) ← parse_members fuel s'; Some (VObj props, rest)
            end
          else if Ascii.eqb c "[" then
            match skip_space s' with
            | String "]" rest => Some (VArr [], rest)
            | _ => '(items, rest) ← parse_elements fuel s'; Some (VArr items, rest)
            end
          else if Ascii.eqb c dquote then
            '(body, rest) ← string_body s'; Some (VStr body, rest)
          else if Ascii.eqb c "t" then literal "true" (VBool true) (String c s')
          else if Ascii.eqb c "f" then literal "false" (VBool false) (String c s')
          else if Ascii.eqb c "n" then literal "null" VNull (String c s')
          else '(n, rest) ← number (String c s'); Some (VNum n, rest)
      | EmptyString => None
      end
  end
with parse_members (fuel : nat) (s : string) : option (gmap string value * string) :=
  match fuel with
  | O => None
  | S fuel =>
      match skip_space s with
      | String c s' =>
          if Ascii.eqb c dquote then
            '(key, rest) ← string_body s';
            match skip_space rest with
            | String ":" rest =>
                '(v, rest) ← parse_value fuel rest;
                match skip_space rest with
                | String "," rest =>
                    '(props, rest) ← parse_members fuel rest;
                    Some (props ∪ {[ key := v ]}, rest)
                | String "}" rest => Some ({[ key := v ]}, rest)
                | _ => None
                end
            | _ => None
            end
          else None
      | EmptyString => None
      end
  end
with parse_elements (fuel : nat) (s : string) : option (list value * string) :=
  match fuel with
  | O => None
  | S fuel =>
      '(v, rest) ← parse_value fuel s;
      match skip_space rest with
      | String "," rest =>
          '(items, rest) ← parse_elements fuel rest; Some (v :: items, rest)
      | String "]" rest => Some ([v], rest)
      | _ => None
      end
  end.

Definition parse (s : string) : ParseResult :=
  match parse_value (S (String.length s)) s with
  | Some (v, rest) =>
      match skip_space rest with
      | EmptyString => Parsed v
      | _ => SyntaxError "Unexpected non-whitespace character after JSON"
      end
  | None => SyntaxError "Unexpected token in JSON"
  end.

(** *** The mocked client of the test suite *)

(** What [mockGetJson], [mockPostJson] and [mockPutJson] answer. *)
Record Mocks : Type :=
  { mockGetJson : Reply; mockPostJson : Reply; mockPutJson : Reply }.

(** The mock functions leave the headers they are handed as they are. *)
Definition platform (m : Mocks) : Platform :=
  {| JSON_parse := parse;
     JSON_stringify := stringify;
     captureStackTrace := λ msg, "Error: " +:+ msg;
     remote := λ _ _ req,
       match req with
       | GetJson _ _ => mockGetJson m
       | PostJson _ _ _ => mockPostJson m
       | PutJson _ _ _ => mockPutJson m
       end;
     headers_after := λ _ _ req,
       match req with
       | GetJson _ headers | PostJson _ _ headers | PutJson _ _ headers => headers
       end |}.

(** A client that answers like the mocks and writes into the headers it is
    handed the way the client library of the action does: [getJson] sets
    [accept], [postJson] and [putJson] set [accept] and [content-type]. *)
Definition writing_platform (m : Mocks) : Platform :=
  {| JSON_parse := parse;
     JSON_stringify := stringify;
     captureStackTrace := λ msg, "Error: " +:+ msg;
     remote := λ _ _ req,
       match req with
       | GetJson _ _ => mockGetJson m
       | PostJson _ _ _ => mockPostJson m
       | PutJson _ _ _ => mockPutJson m
       end;
     headers_after := λ _ _ req,
       match req with
       | GetJson _ headers => <["accept" := "application/json"]> headers
       | PostJson _ _ headers | PutJson _ _ headers =>
           <["accept" := "application/json"]>
             (<["content-type" := "application/json"]> headers)
       end |}.

Definition mockSuccessResponse : Response :=
  {| statusCode := 200;
     result := VObj {[ "id" := VStr "10000"; "key" := VStr "PROJECT-123";
                       "self" := VStr "https://your-domain.atlassian.net/rest/api/3/issue/10000" ]} |}.

Definition mockErrorResponse : Response :=
  {| statusCode := 400;
     result := VObj {[ "errorMessages" := VArr [VStr "Error occurred"];
                       "errors" := VObj ∅ ]} |}.

(** The mocks as [beforeEach] sets them. *)
Definition allSucceed : Mocks :=
  {| mockGetJson := Resolve mockSuccessResponse;
     mockPostJson := Resolve mockSuccessResponse;
     mockPutJson := Resolve mockSuccessResponse |}.

(** The client [run] builds from the inputs of [getInputMockFn], the base
    URL and the default headers. *)
Definition client : HttpClient :=
  {| userAgent := "node-jira-cloud-action";
     handlers := [{| username := "test@example.com"; password := "test-token" |}] |}.

Definition baseUrl : string := "https://your-domain.atlassian.net".

Definition headers : gmap string string :=
  {[ "Content-Type" := "application/json"; "Accept" := "application/json" ]}.

(** The inputs [getInputMockFn] supplies for an operation. *)
Definition getInputMockFn (operation : string) : gmap string string :=
  {[ "jira_base_url" := "https://your-domain.atlassian.net";
     "jira_email" := "test@example.com";
     "jira_api_token" := "test-token";
     "operation" := operation;
     "project_key" := "PROJECT";
     "issue_type" := "Bug";
     "summary" := "Test issue";
     "description" := "Test description";
     "issue_key" := "PROJECT-123";
     "transition_id" := "31";
     "comment" := "Test comment" ]}.

End Fixture.

(** ** Vocabulary of the properties *)

(** The operation names the dispatcher knows. *)
Definition supported_operations : list string :=
  ["create_issue"; "update_issue"; "transition_issue"; "add_comment";
   "get_issue"; "get_project"; "create_version"].

(** The same world with other inputs. *)
Definition with_inputs (env : gmap string string) (w : World) : World :=
  {| inputs := env; requests := requests w; outputs := outputs w;
     failures := failures w; debugs := debugs w |}.

(** A computation that leaves inputs, outputs and failure marks alone. *)
Definition silent {A} (m : Js A) : Prop :=
  ∀ w, inputs (snd (m w)) = inputs w
       ∧ outputs (snd (m w)) = outputs w
       ∧ failures (snd (m w)) = failures w.

(** The inputs [run] requires before it dispatches, in the order it reads
    them. *)
Definition connection_inputs : list string :=
  ["jira_base_url"; "jira_email"; "jira_api_token"; "operation"].

(** The inputs each pipeline reads with [{ required: true }], in the order
    it reads them. *)
Definition required_inputs (operation : string) : list string :=
  if String.eqb operation "create_issue" then ["project_key"; "issue_type"; "summary"]
  else if String.eqb operation "update_issue" then ["issue_key"]
  else if String.eqb operation "transition_issue" then ["issue_key"; "transition_id"]
  else if String.eqb operation "add_comment" then ["issue_key"; "comment"]
  else if String.eqb operation "get_issue" then ["issue_key"]
  else if String.eqb operation "get_project" then ["project_key"]
  else if String.eqb operation "create_version" then ["project_id"; "version_name"]
  else [].

(** The first of the names whose input is empty in a world. *)
Fixpoint first_missing (names : list string) (w : World) : option string :=
  match names with
  | [] => None
  | name :: rest =>
      if nonempty (input w name) then first_missing rest w else Some name
  end.

(** The client, base URL and headers [run] hands to the pipelines. *)
Definition client_of (w : World) : HttpClient :=
  {| userAgent := "node-jira-cloud-action";
     handlers := [{| username := input w "jira_email";
                     password := input w "jira_api_token" |}] |}.

Definition base_of (w : World) : string :=
  if endsWith (input w "jira_base_url") "/"
  then slice_0_m1 (input w "jira_base_url")
  else input w "jira_base_url".

Definition default_headers : gmap string string :=
  {[ "Content-Type" := "application/json"; "Accept" := "application/json" ]}.

(** The URL and the headers of a request. *)
Definition url_of (request : Request) : string :=
  match request with
  | GetJson url _ | PostJson url _ _ | PutJson url _ _ => url
  end.

Definition headers_of (request : Request) : gmap string string :=
  match request with
  | GetJson _ headers | PostJson _ _ headers | PutJson _ _ headers => headers
  end.

(** A request under the REST root of a base URL, with given headers. *)
Definition targets (baseUrl : string) (headers : gmap string string)
    (request : Request) : Prop :=
  (∃ path, url_of request = baseUrl +:+ "/rest/api/3/" +:+ path)
  ∧ headers_of request = headers.

Section Properties.
Context `{Platform}.

(** *** Logs that grow at the end *)

Lemma log_grows_0 {A} (l : list A) x rest : l = l ++ x :: rest → False.
Proof.
  intros Heq. apply (f_equal length) in Heq.
  rewrite length_app in Heq. simpl in Heq. lia.
Qed.

Lemma log_grows_1 {A} (l : list A) a x rest :
  l ++ [a] = l ++ x :: rest → a = x ∧ rest = [].
Proof. intros Heq. apply app_inv_head in Heq. by simplify_eq. Qed.

Lemma log_grows_2 {A} (l : list A) a b x rest :
  (l ++ [a]) ++ [b] = l ++ x :: rest → a = x ∧ rest = [b].
Proof.
  rewrite <- app_assoc. intros Heq. apply app_inv_head in Heq.
  simpl in Heq. by simplify_eq.
Qed.

(** *** Reading inputs and status codes *)

Lemma getInput_optional name w :
  getInput name false w = (Normal (input w name), w).
Proof. reflexivity. Qed.

Lemma getInput_supplied name w :
  input w name ≠ "" → getInput name true w = (Normal (input w name), w).
Proof.
  intros Hne. unfold getInput, nonempty.
  destruct (String.eqb_spec (input w name) ""); [contradiction | reflexivity].
Qed.

Lemma getInput_missing name w :
  input w name = "" →
  getInput name true w
  = (Throw (ThrowError (new_Error ("Input required and not supplied: " +:+ name))), w).
Proof. intros Heq. unfold getInput, nonempty. rewrite Heq. reflexivity. Qed.

Lemma nonempty_true s : nonempty s = true ↔ s ≠ "".
Proof.
  unfold nonempty.
  destruct (String.eqb_spec s ""); simpl; split; intros; congruence.
Qed.

Lemma rejected_true r :
  rejected r = true ↔ statusCode r < 200 ∨ 300 ≤ statusCode r.
Proof. unfold rejected. rewrite orb_true_iff, Z.ltb_lt, Z.geb_le. tauto. Qed.

Lemma rejected_false r :
  rejected r = false ↔ 200 ≤ statusCode r < 300.
Proof.
  unfold rejected. rewrite orb_false_iff, Z.ltb_ge.
  destruct (Z.geb_spec (statusCode r) 300); intuition (try discriminate; lia).
Qed.

(** Unfolds the code of the action down to matches on what it reads. *)
Ltac js_unfold :=
  cbv beta iota zeta delta
    [run try_block run_operation dispatch set_outputs on_error
     createIssue updateIssue transitionIssue addComment getIssue getProject
     createVersion add_fields_json member getJson postJson putJson call
     getInput setOutput setFailed debug bind ret throw lift try_catch
     andb negb] in *.

(** Splits on one test the code makes: an input being empty, a status code
    being rejected, the reply of the remote service, and so on. *)
Ltac js_case_on x := destruct x eqn:?; cbv beta iota in *.

(** A comparison of two string literals is decided rather than split on. *)
Ltac js_case_eqb a b :=
  let v := eval vm_compute in (String.eqb a b) in
  lazymatch v with
  | true => change (String.eqb a b) with true in *; cbv beta iota in *
  | false => change (String.eqb a b) with false in *; cbv beta iota in *
  | _ => js_case_on (String.eqb a b)
  end.

Ltac js_case :=
  match goal with
  | _ : context [match nonempty ?s with _ => _ end] |- _ => js_case_on (nonempty s)
  | |- context [match nonempty ?s with _ => _ end] => js_case_on (nonempty s)
  | _ : context [match JSON_parse ?s with _ => _ end] |- _ => js_case_on (JSON_parse s)
  | |- context [match JSON_parse ?s with _ => _ end] => js_case_on (JSON_parse s)
  | _ : context [match remote ?c ?l ?q with _ => _ end] |- _ =>
      js_case_on (remote c l q)
  | |- context [match remote ?c ?l ?q with _ => _ end] => js_case_on (remote c l q)
  | _ : context [match rejected ?r with _ => _ end] |- _ => js_case_on (rejected r)
  | |- context [match rejected ?r with _ => _ end] => js_case_on (rejected r)
  | _ : context [match nullish ?v with _ => _ end] |- _ => js_case_on (nullish v)
  | |- context [match nullish ?v with _ => _ end] => js_case_on (nullish v)
  | _ : context [match truthy ?v with _ => _ end] |- _ => js_case_on (truthy v)
  | |- context [match truthy ?v with _ => _ end] => js_case_on (truthy v)
  | _ : context [match String.eqb ?a ?b with _ => _ end] |- _ => js_case_eqb a b
  | |- context [match String.eqb ?a ?b with _ => _ end] => js_case_eqb a b
  | _ : context [match ?t with ThrowError _ => _ | ThrowValue _ => _ end] |- _ =>
      is_var t; destruct t; cbv beta iota in *
  | |- context [match ?t with ThrowError _ => _ | ThrowValue _ => _ end] =>
      is_var t; destruct t; cbv beta iota in *
  end.

(** Reads the fields of the worlds and results just built. *)
Ltac js_proj :=
  cbn [inputs requests outputs failures debugs
       add_request add_output add_failure add_debug with_inputs
       issueKey issueId data prop fst snd] in *.

(** Turns an equation between a grown log and its expected shape into
    equations between the exchanges. *)
Ltac js_log :=
  repeat match goal with
  | Hlog : ?l = ?l ++ _ :: _ |- _ => destruct (log_grows_0 _ _ _ Hlog)
  | Hlog : ?l ++ [_] = ?l ++ _ :: _ |- _ =>
      apply log_grows_1 in Hlog; destruct Hlog
  | Hlog : (?l ++ [_]) ++ [_] = ?l ++ _ :: _ |- _ =>
      apply log_grows_2 in Hlog; destruct Hlog
  end; simplify_eq.

(** Replaces the calls of the remote service by the replies they got. *)
Ltac js_replies :=
  unfold Exchange in *;
  repeat match goal with
  | Hreply : remote _ _ _ = _ |- _ => rewrite Hreply
  end.

(** Closes a case whose status-code test and hypothesis disagree. *)
Ltac js_range :=
  repeat match goal with
  | Hrej : rejected _ = true |- _ => apply rejected_true in Hrej
  | Hrej : rejected _ = false |- _ => apply rejected_false in Hrej
  end.

(** C1: [update_issue] and [transition_issue] make the write call and then a
    GET of the issue when they succeed, and the result takes the input's
    issue key and the id and body of the GET response; a first reply with a
    status code outside [200,300) is the only call of the pipeline, which
    then throws.  With the inputs supplied the write call is made, and a
    write that is accepted is always followed by the GET, sent with the
    headers object as the write call left it; the result is returned
    whenever the GET resolves with a body that is neither null nor
    undefined, and it does not depend on the body of the first reply. *)
Theorem update_transition_calls operation client baseUrl headers w c w' :
  operation = "update_issue" ∨ operation = "transition_issue" →
  dispatch operation client baseUrl headers w = (c, w') →
  let issue := baseUrl +:+ "/rest/api/3/issue/" +:+ input w "issue_key" in
  let writes (write : Request) : Prop :=
    (operation = "update_issue" ∧ ∃ body, write = PutJson issue body headers)
    ∨ (operation = "transition_issue"
       ∧ write = PostJson (baseUrl +:+ "/rest/api/3/issue/"
                             +:+ input w "issue_key" +:+ "/transitions")
                   (VObj {[ "transition" :=
                              VObj {[ "id" := VStr (input w "transition_id") ]} ]})
                   headers) in
  let reads (write : Request) : Request :=
    GetJson issue (headers_after client (requests w) write) in
  (∀ r, c = Normal r →
     ∃ write first second,
       requests w'
       = requests w ++ [(write, Resolve first); (reads write, Resolve second)]
       ∧ writes write
       ∧ 200 ≤ statusCode first < 300
       ∧ issueKey r = Some (VStr (input w "issue_key"))
       ∧ issueId r = Some (property (result second) "id")
       ∧ data r = result second)
  ∧ (∀ req first rest,
       requests w' = requests w ++ (req, Resolve first) :: rest →
       statusCode first < 200 ∨ 300 ≤ statusCode first →
       rest = [] ∧ ∃ t, c = Throw t)
  ∧ (∀ write first rest,
       requests w' = requests w ++ (write, Resolve first) :: rest →
       200 ≤ statusCode first < 300 →
       let answer :=
         remote client (requests w ++ [(write, Resolve first)]) (reads write) in
       rest = [(reads write, answer)]
       ∧ (∀ t, answer = Reject t → c = Throw t)
       ∧ (∀ second,
            answer = Resolve second →
            nullish (result second) = false →
            c = Normal {| issueKey := Some (VStr (input w "issue_key"));
                          issueId := Some (property (result second) "id");
                          data := result second |}))
  ∧ ((operation = "update_issue"
      ∧ input w "issue_key" ≠ ""
      ∧ (input w "fields_json" = ""
         ∨ ∃ v, JSON_parse (input w "fields_json") = Parsed v))
     ∨ (operation = "transition_issue"
        ∧ input w "issue_key" ≠ "" ∧ input w "transition_id" ≠ "") →
     ∃ write rest,
       writes write
       ∧ requests w' = requests w ++ (write, remote client (requests w) write) :: rest).
Proof.
  intros [-> | ->] Hrun issue writes reads; subst issue writes reads;
    cbv beta.
  - change (dispatch "update_issue" client baseUrl headers)
      with (updateIssue client baseUrl headers) in Hrun.
    js_unfold.
    repeat js_case; simplify_eq; js_proj.
    all: split_and!;
      [ intros res Hres; simplify_eq; js_range;
        eexists _, _, _; rewrite <- app_assoc;
        (split; [reflexivity|]); (split; [left; by eauto|]); by eauto
      | intros req first' rest Hlog Hout; js_log; js_range; try lia; by eauto
      | intros write first' rest Hlog Hin; js_log; js_range; try lia;
        js_replies;
        (split_and!;
         [ reflexivity
         | intros ? Ht; by simplify_eq
         | intros ? Hsecond Hbody; simplify_eq; congruence ])
      | intros [(_ & Hkey%nonempty_true & Hjson) | (Hno & _)];
        [| discriminate Hno];
        try congruence;
        try (destruct Hjson as [Hempty | [v' Hv']];
             [rewrite Hempty in *; discriminate | discriminate]);
        eexists _, _; (split; [left; split; [reflexivity | by eexists]|]);
        js_replies; rewrite <- ?app_assoc; reflexivity ].
  - change (dispatch "transition_issue" client baseUrl headers)
      with (transitionIssue client baseUrl headers) in Hrun.
    js_unfold.
    repeat js_case; simplify_eq; js_proj.
    all: split_and!;
      [ intros res Hres; simplify_eq; js_range;
        eexists _, _, _; rewrite <- app_assoc;
        (split; [reflexivity|]); (split; [right; by eauto|]); by eauto
      | intros req first' rest Hlog Hout; js_log; js_range; try lia; by eauto
      | intros write first' rest Hlog Hin; js_log; js_range; try lia;
        js_replies;
        (split_and!;
         [ reflexivity
         | intros ? Ht; by simplify_eq
         | intros ? Hsecond Hbody; simplify_eq; congruence ])
      | intros [(Hno & _) | (_ & Hkey%nonempty_true & Hid%nonempty_true)];
        [discriminate Hno|];
        try congruence;
        eexists _, _; (split; [right; split; reflexivity|]);
        js_replies; rewrite <- ?app_assoc; reflexivity ].
Qed.

(** C2: with its required inputs supplied and [fields_json] empty or
    parseable, [create_issue] posts [{fields: ...}] where the fields are the
    project key, issue type and summary, then the description when it is
    supplied, then the properties of the parsed [fields_json] on top: a
    property of [fields_json] wins over a base field of the same name, every
    other base field is kept. *)
Theorem create_issue_body client baseUrl headers w extra :
  input w "project_key" ≠ "" →
  input w "issue_type" ≠ "" →
  input w "summary" ≠ "" →
  (input w "fields_json" = "" ∧ extra = ∅)
  ∨ (input w "fields_json" ≠ ""
     ∧ ∃ v, JSON_parse (input w "fields_json") = Parsed v
            ∧ extra = own_properties v) →
  let base : gmap string value :=
    {[ "project" := VObj {[ "key" := VStr (input w "project_key") ]};
       "issuetype" := VObj {[ "name" := VStr (input w "issue_type") ]};
       "summary" := VStr (input w "summary") ]} in
  let described :=
    if nonempty (input w "description")
    then <["description" := VStr (input w "description")]> base
    else base in
  (∃ reply,
     requests (snd (createIssue client baseUrl headers w))
     = requests w
       ++ [(PostJson (baseUrl +:+ "/rest/api/3/issue")
              (VObj {[ "fields" := VObj (extra ∪ described) ]}) headers, reply)])
  ∧ (∀ k x, extra !! k = Some x → (extra ∪ described) !! k = Some x)
  ∧ (∀ k, extra !! k = None → (extra ∪ described) !! k = described !! k).
Proof.
  intros Hproject Htype Hsummary Hjson base described.
  apply nonempty_true in Hproject, Htype, Hsummary.
  split; [| split].
  - destruct (createIssue client baseUrl headers w) as [c w'] eqn:Hrun.
    subst base described. js_unfold.
    rewrite Hproject, Htype, Hsummary in Hrun.
    destruct Hjson as [[Hempty ->] | (Hsome & v & Hparse & ->)].
    + rewrite (left_id_L ∅ (∪)). rewrite Hempty in Hrun.
      cbn [nonempty String.eqb negb] in Hrun.
      repeat js_case; simplify_eq; js_proj; eauto.
    + apply nonempty_true in Hsome. rewrite Hsome, Hparse in Hrun.
      repeat js_case; simplify_eq; js_proj; eauto.
  - intros k x Hk. by apply lookup_union_Some_l.
  - intros k Hk. by apply lookup_union_r.
Qed.

(** *** Inputs of a world whose inputs were replaced *)

Lemma input_without name w k :
  input (with_inputs (delete name (inputs w)) w) k
  = if String.eqb name k then "" else input w k.
Proof.
  unfold input. cbn [inputs with_inputs].
  destruct (String.eqb_spec name k) as [-> | Hne].
  - by rewrite lookup_delete_eq.
  - by rewrite lookup_delete_ne.
Qed.

Lemma input_with name v w k :
  input (with_inputs (<[name := v]> (inputs w)) w) k
  = if String.eqb name k then v else input w k.
Proof.
  unfold input. cbn [inputs with_inputs].
  destruct (String.eqb_spec name k) as [-> | Hne].
  - by rewrite lookup_insert_eq.
  - by rewrite lookup_insert_ne.
Qed.

(** Decides the comparisons of two string literals. *)
Ltac js_literals :=
  repeat match goal with
  | |- context [String.eqb ?a ?b] =>
      let v := eval vm_compute in (String.eqb a b) in
      match v with
      | true => change (String.eqb a b) with true
      | false => change (String.eqb a b) with false
      end
  | Hyp : context [String.eqb ?a ?b] |- _ =>
      let v := eval vm_compute in (String.eqb a b) in
      match v with
      | true => change (String.eqb a b) with true in Hyp
      | false => change (String.eqb a b) with false in Hyp
      end
  end; cbv beta iota in *.

(** C3: with its required inputs supplied, [create_version] posts a body
    whose [archived] and [released] fields are always present and are true
    exactly when the input is the string "true"; and a run where one of the
    two inputs is absent cannot be told from a run where it is "false". *)
Theorem create_version_flags client baseUrl headers w :
  (input w "project_id" ≠ "" →
   input w "version_name" ≠ "" →
   ∃ body reply,
     requests (snd (createVersion client baseUrl headers w))
     = requests w
       ++ [(PostJson (baseUrl +:+ "/rest/api/3/version") (VObj body) headers, reply)]
     ∧ body !! "archived"
       = Some (VBool (bool_decide (input w "version_archived" = "true")))
     ∧ body !! "released"
       = Some (VBool (bool_decide (input w "version_released" = "true"))))
  ∧ (∀ name,
       name = "version_archived" ∨ name = "version_released" →
       let absent := with_inputs (delete name (inputs w)) w in
       let says_false := with_inputs (<[name := "false"]> (inputs w)) w in
       fst (createVersion client baseUrl headers absent)
       = fst (createVersion client baseUrl headers says_false)
       ∧ requests (snd (createVersion client baseUrl headers absent))
         = requests (snd (createVersion client baseUrl headers says_false))).
Proof.
  split.
  - intros Hproject Hname.
    apply nonempty_true in Hproject, Hname.
    destruct (createVersion client baseUrl headers w) as [c w'] eqn:Hrun.
    js_unfold. rewrite Hproject, Hname in Hrun.
    assert (Hflag : ∀ s, String.eqb s "true" = bool_decide (s = "true")).
    { intros s. destruct (String.eqb_spec s "true"); by case_bool_decide. }
    rewrite !Hflag in Hrun.
    repeat js_case; simplify_eq; js_proj.
    all: eexists _, _; split; [reflexivity|].
    all: split; (rewrite ?lookup_insert_ne by discriminate); apply lookup_insert_eq.
  - intros name Hname absent says_false. subst absent says_false.
    js_unfold. rewrite !input_without, !input_with.
    destruct Hname as [-> | ->]; js_literals; js_proj.
    all: repeat js_case; simplify_eq; done.
Qed.
(** C4: with the connection inputs supplied, an operation name outside the
    seven supported ones makes the dispatcher throw at once, whatever client
    it is given; the run makes no HTTP call, reports status "error" and fails
    with "Unsupported operation: " followed by the name. *)
Theorem unsupported_operation w op :
  input w "jira_base_url" ≠ "" →
  input w "jira_email" ≠ "" →
  input w "jira_api_token" ≠ "" →
  input w "operation" = op →
  op ≠ "" →
  op ∉ supported_operations →
  (∀ client baseUrl headers,
     dispatch op client baseUrl headers
     = throw (ThrowError (new_Error ("Unsupported operation: " +:+ op))))
  ∧ requests (snd (run w)) = requests w
  ∧ outputs (snd (run w)) = outputs w ++ [("status", VStr "error")]
  ∧ failures (snd (run w)) = failures w ++ ["Unsupported operation: " +:+ op].
Proof.
  intros Hurl Hemail Htoken Hop Hne Hunsupported.
  assert (Hdispatch : ∀ client baseUrl headers,
            dispatch op client baseUrl headers
            = throw (ThrowError (new_Error ("Unsupported operation: " +:+ op)))).
  { intros client baseUrl headers. unfold dispatch, supported_operations in *.
    repeat match goal with
    | Hnot : _ ∉ _ :: _ |- _ =>
        apply not_elem_of_cons in Hnot as [Hneq%String.eqb_neq Hnot];
        rewrite Hneq; clear Hneq
    end.
    reflexivity. }
  split; [exact Hdispatch|].
  apply nonempty_true in Hurl, Hemail, Htoken, Hne.
  unfold run, try_block, run_operation, try_catch, bind, getInput, lift.
  cbv zeta. rewrite Hop, Hurl, Hemail, Htoken, Hne. cbn [andb negb].
  rewrite Hdispatch. by cbv.
Qed.

(** C5: with the required inputs of the operation supplied, a non-empty
    [fields_json] that [JSON.parse] rejects makes [create_issue] and
    [update_issue] throw "Invalid fields_json: " followed by the parser's
    message, and the world is left as it was: no HTTP call has been made. *)
Theorem invalid_fields_json operation client baseUrl headers w msg :
  (operation = "create_issue"
   ∧ input w "project_key" ≠ "" ∧ input w "issue_type" ≠ ""
   ∧ input w "summary" ≠ "")
  ∨ (operation = "update_issue" ∧ input w "issue_key" ≠ "") →
  input w "fields_json" ≠ "" →
  JSON_parse (input w "fields_json") = SyntaxError msg →
  dispatch operation client baseUrl headers w
  = (Throw (ThrowError (new_Error ("Invalid fields_json: " +:+ msg))), w).
Proof.
  intros Hinputs Hjson Hparse. apply nonempty_true in Hjson.
  destruct Hinputs as [(-> & Hproject & Htype & Hsummary) | (-> & Hkey)].
  - apply nonempty_true in Hproject, Htype, Hsummary.
    change (dispatch "create_issue" client baseUrl headers)
      with (createIssue client baseUrl headers).
    js_unfold. by rewrite Hproject, Htype, Hsummary, Hjson, Hparse.
  - apply nonempty_true in Hkey.
    change (dispatch "update_issue" client baseUrl headers)
      with (updateIssue client baseUrl headers).
    js_unfold. by rewrite Hkey, Hjson, Hparse.
Qed.

(** C9: with its required inputs supplied, [add_comment] posts exactly the
    document [{body: {type: "doc", version: 1, content: [{type: "paragraph",
    content: [{type: "text", text: comment}]}]}}], and when the reply has a
    status code in [200,300) the result carries the input issue key and the
    response body, and no issue id. *)
Theorem add_comment_request client baseUrl headers w :
  input w "issue_key" ≠ "" →
  input w "comment" ≠ "" →
  let request :=
    PostJson
      (baseUrl +:+ "/rest/api/3/issue/" +:+ input w "issue_key" +:+ "/comment")
      (VObj {[ "body" := VObj {[
         "type" := VStr "doc";
         "version" := VNum 1;
         "content" := VArr [
           VObj {[ "type" := VStr "paragraph";
                   "content" := VArr [
                     VObj {[ "type" := VStr "text";
                             "text" := VStr (input w "comment") ]} ] ]} ] ]} ]})
      headers in
  let reply := remote client (requests w) request in
  requests (snd (addComment client baseUrl headers w))
  = requests w ++ [(request, reply)]
  ∧ (∀ response,
       reply = Resolve response →
       200 ≤ statusCode response < 300 →
       fst (addComment client baseUrl headers w)
       = Normal {| issueKey := Some (VStr (input w "issue_key"));
                   issueId := None;
                   data := result response |}).
Proof.
  intros Hkey Hcomment request reply. subst request reply.
  apply nonempty_true in Hkey, Hcomment.
  js_unfold. rewrite Hkey, Hcomment. js_proj.
  split.
  - repeat js_case; reflexivity.
  - intros response Hreply Hrange. apply rejected_false in Hrange.
    rewrite Hreply. cbv beta iota. by rewrite Hrange.
Qed.

(** C6: when the reply to the first HTTP call of a run carries a status code
    outside [200,300), that call is the only one, the run reports status
    "error" and nothing else, and it fails with a message made of a prefix,
    the status code, a space and the serialized response body. *)
Theorem remote_rejection w c w' request response rest :
  run w = (c, w') →
  requests w' = requests w ++ (request, Resolve response) :: rest →
  statusCode response < 200 ∨ 300 ≤ statusCode response →
  rest = []
  ∧ outputs w' = outputs w ++ [("status", VStr "error")]
  ∧ ∃ prefix,
      failures w'
      = failures w
        ++ [prefix +:+ pretty (statusCode response) +:+ " "
            +:+ template (JSON_stringify (result response))].
Proof.
  intros Hrun Hlog Hout.
  js_unfold.
  repeat js_case; simplify_eq; js_proj.
  all: js_log; js_range; try lia; eauto.
Qed.


(** *** Computations that set no output *)

Lemma silent_lift {A} (c : Completion A) : silent (lift c).
Proof. by intros w. Qed.

Lemma silent_bind {A B} (m : Js A) (k : A → Js B) :
  silent m → (∀ a, silent (k a)) → silent (bind m k).
Proof.
  intros Hm Hk w. unfold bind.
  destruct (Hm w) as (Hin & Hout & Hfail).
  destruct (m w) as [[a | t] w1]; cbn [snd] in *.
  - destruct (Hk a w1) as (Hin' & Hout' & Hfail'). split_and!; congruence.
  - done.
Qed.

Lemma silent_getInput name required : silent (getInput name required).
Proof. by intros w. Qed.

Lemma silent_debug msg : silent (debug msg).
Proof. by intros w. Qed.

Lemma silent_call client request : silent (call client request).
Proof. by intros w. Qed.

Lemma silent_if {A} (b : bool) (m1 m2 : Js A) :
  silent m1 → silent m2 → silent (if b then m1 else m2).
Proof. by destruct b. Qed.

Create HintDb silent.
#[local] Hint Resolve silent_lift silent_bind silent_getInput silent_debug
  silent_call silent_if : silent.
#[local] Hint Unfold ret throw member add_fields_json getJson postJson putJson
  : silent.
#[local] Hint Extern 1 (silent _) =>
  match goal with
  | |- silent (match ?p with _ => _ end) => is_var p; destruct p
  end : silent.

Ltac silent_steps := cbv zeta; repeat (autounfold with silent; eauto 20 with silent).

Lemma silent_dispatch operation client baseUrl headers :
  silent (dispatch operation client baseUrl headers).
Proof.
  unfold dispatch. repeat apply silent_if.
  - unfold createIssue. silent_steps.
  - unfold updateIssue. silent_steps.
  - unfold transitionIssue. silent_steps.
  - unfold addComment. silent_steps.
  - unfold getIssue. silent_steps.
  - unfold getProject. silent_steps.
  - unfold createVersion. silent_steps.
  - silent_steps.
Qed.

Lemma silent_run_operation : silent run_operation.
Proof.
  unfold run_operation. cbv zeta.
  repeat (apply silent_bind; [apply silent_getInput | intros ?]).
  apply silent_dispatch.
Qed.

(** Setting the outputs never throws. *)
Lemma set_outputs_returns r w : fst (set_outputs r w) = Normal tt.
Proof. js_unfold. by repeat js_case. Qed.

(** The operation that returned was dispatched on the [operation] input. *)
Lemma run_operation_dispatch w r w1 :
  run_operation w = (Normal r, w1) →
  nonempty (input w "operation") = true
  ∧ ∃ client baseUrl headers,
      dispatch (input w "operation") client baseUrl headers w = (Normal r, w1).
Proof.
  intros Hrun.
  cbv beta iota zeta delta [run_operation bind getInput lift andb negb] in Hrun.
  repeat js_case; simplify_eq. split; eauto.
Qed.

(** C7 as amended: when the [try] block throws, the run reports status
    "error" and sets no other output, and it fails with the message of the
    thrown [Error], or with "An unknown error occurred" when what was thrown
    is not an [Error]. *)
Theorem error_path w t w1 :
  try_block w = (Throw t, w1) →
  fst (run w) = Normal tt
  ∧ outputs (snd (run w)) = outputs w ++ [("status", VStr "error")]
  ∧ failures (snd (run w))
    = failures w
      ++ [match t with
          | ThrowError e => message e
          | ThrowValue _ => "An unknown error occurred"
          end].
Proof.
  intros Hthrow.
  assert (Hquiet : outputs w1 = outputs w ∧ failures w1 = failures w).
  { unfold try_block, bind in Hthrow.
    destruct (silent_run_operation w) as (_ & Hout & Hfail).
    destruct (run_operation w) as [[r | t'] w0]; cbn [snd] in *.
    - pose proof (set_outputs_returns r w0) as Hret.
      rewrite Hthrow in Hret. discriminate.
    - by simplify_eq. }
  destruct Hquiet as [Hout Hfail].
  unfold run, try_catch. rewrite Hthrow.
  destruct t; js_unfold; js_proj; by rewrite Hout, Hfail.
Qed.

(** C8 as amended: when the operation returns, [issue_key] is set exactly
    when the result's [issueKey] is truthy and [issue_id] exactly when its
    [issueId] is truthy, between the outputs [status] and [response];
    [get_project] and [create_version] carry neither, [add_comment] carries
    the (non-empty) input issue key and no id, [update_issue],
    [transition_issue] and [get_issue] carry the input issue key and the id
    property of the response body, [create_issue] the key and id properties
    of the response body. *)
Theorem outputs_on_success w r w1 :
  run_operation w = (Normal r, w1) →
  outputs (snd (run w))
  = outputs w
    ++ [("status", VStr "success")]
    ++ (if truthy (prop (issueKey r)) then [("issue_key", prop (issueKey r))] else [])
    ++ (if truthy (prop (issueId r)) then [("issue_id", prop (issueId r))] else [])
    ++ [("response",
         match JSON_stringify (data r) with
         | Some s => VStr s
         | None => VUndefined
         end)]
  ∧ failures (snd (run w)) = failures w
  ∧ (input w "operation" = "get_project" ∨ input w "operation" = "create_version" →
     issueKey r = None ∧ issueId r = None)
  ∧ (input w "operation" = "add_comment" →
     issueKey r = Some (VStr (input w "issue_key"))
     ∧ input w "issue_key" ≠ ""
     ∧ issueId r = None)
  ∧ (input w "operation" = "update_issue"
     ∨ input w "operation" = "transition_issue"
     ∨ input w "operation" = "get_issue" →
     issueKey r = Some (VStr (input w "issue_key"))
     ∧ input w "issue_key" ≠ ""
     ∧ issueId r = Some (property (data r) "id"))
  ∧ (input w "operation" = "create_issue" →
     issueKey r = Some (property (data r) "key")
     ∧ issueId r = Some (property (data r) "id")).
Proof.
  intros Hrun.
  destruct (silent_run_operation w) as (_ & Hout & Hfail).
  rewrite Hrun in Hout, Hfail. cbn [snd] in Hout, Hfail.
  destruct (run_operation_dispatch _ _ _ Hrun)
    as (_ & client & baseUrl & headers & Hdispatch).
  assert (Hset : run w = set_outputs r w1).
  { unfold run, try_catch, try_block, bind. rewrite Hrun.
    pose proof (set_outputs_returns r w1) as Hret.
    destruct (set_outputs r w1) as [c w2]. cbn [fst] in Hret. by subst c. }
  rewrite Hset. clear Hrun Hset.
  split; [| split].
  - clear Hdispatch. js_unfold.
    repeat js_case; js_proj; by rewrite Hout, <- ?app_assoc.
  - clear Hdispatch. js_unfold. repeat js_case; js_proj; done.
  - clear Hout Hfail. split_and!; intros Hop.
    + (js_unfold;
      destruct Hop as [Hop | Hop]; rewrite Hop in Hdispatch; js_literals;
      repeat js_case; by simplify_eq).
    + (js_unfold; rewrite Hop in Hdispatch; js_literals;
      repeat js_case; simplify_eq; js_proj;
      split_and!; try done; by apply nonempty_true).
    + (js_unfold;
      destruct Hop as [Hop | [Hop | Hop]]; rewrite Hop in Hdispatch; js_literals;
      repeat js_case; simplify_eq; js_proj;
      split_and!; try done; by apply nonempty_true).
    + (js_unfold; rewrite Hop in Hdispatch; js_literals;
      repeat js_case; by simplify_eq).
Qed.


(** C10 as amended: in a run of [update_issue] or [transition_issue] whose
    two calls were answered, the operation returns whenever the body of the
    GET response is neither null nor undefined, whatever its status code:
    the result takes its id and data from that body, and the run reports
    status "success" and does not fail. *)
Theorem read_back_unchecked w write first read second :
  input w "operation" = "update_issue"
  ∨ input w "operation" = "transition_issue" →
  requests (snd (run w))
  = requests w ++ [(write, Resolve first); (read, Resolve second)] →
  nullish (result second) = false →
  (∃ w1, run_operation w
         = (Normal {| issueKey := Some (VStr (input w "issue_key"));
                      issueId := Some (property (result second) "id");
                      data := result second |}, w1))
  ∧ failures (snd (run w)) = failures w
  ∧ ∃ more, outputs (snd (run w)) = outputs w ++ ("status", VStr "success") :: more.
Proof.
  intros Hop Hlog Hbody.
  destruct (run w) as [c w'] eqn:Hrun. cbn [snd] in *.
  js_unfold.
  destruct Hop as [Hop | Hop]; rewrite Hop in *.
  all: repeat js_case; simplify_eq; js_proj; js_log.
  all: try congruence.
  all: split_and!; eauto; rewrite <- ?app_assoc; eauto.
Qed.

(** *** From [run] to the pipelines *)

Lemma run_operation_supplied w :
  first_missing connection_inputs w = None →
  run_operation w
  = dispatch (input w "operation") (client_of w) (base_of w) default_headers w.
Proof.
  unfold connection_inputs, first_missing. intros Hnone.
  cbv beta iota zeta delta [run_operation bind getInput lift andb negb].
  repeat js_case; simplify_eq. reflexivity.
Qed.

Lemma run_operation_missing w name :
  first_missing connection_inputs w = Some name →
  run_operation w
  = (Throw (ThrowError (new_Error ("Input required and not supplied: " +:+ name))), w).
Proof.
  unfold connection_inputs, first_missing. intros Hsome.
  cbv beta iota zeta delta [run_operation bind getInput lift andb negb].
  repeat js_case; simplify_eq; reflexivity.
Qed.

(** What the [try]/[catch] of [run] does with the outcome of the operation. *)
Lemma run_after_operation w :
  run w
  = match run_operation w with
    | (Normal response, w1) => set_outputs response w1
    | (Throw error, w1) => on_error error w1
    end.
Proof.
  unfold run, try_catch, try_block, bind.
  destruct (run_operation w) as [[response | error] w1]; [|reflexivity].
  pose proof (set_outputs_returns response w1) as Hret.
  destruct (set_outputs response w1) as [c w2]. cbn [fst] in Hret. by subst c.
Qed.

Lemma on_error_effects error w :
  fst (on_error error w) = Normal tt
  ∧ requests (snd (on_error error w)) = requests w
  ∧ outputs (snd (on_error error w)) = outputs w ++ [("status", VStr "error")]
  ∧ failures (snd (on_error error w))
    = failures w
      ++ [match error with
          | ThrowError e => message e
          | ThrowValue _ => "An unknown error occurred"
          end].
Proof. destruct error; js_unfold; js_proj; done. Qed.

Lemma set_outputs_effects response w :
  requests (snd (set_outputs response w)) = requests w
  ∧ failures (snd (set_outputs response w)) = failures w
  ∧ outputs (snd (set_outputs response w))
    = outputs w
      ++ ("status", VStr "success")
         :: ((if truthy (prop (issueKey response))
              then [("issue_key", prop (issueKey response))] else [])
             ++ (if truthy (prop (issueId response))
                 then [("issue_id", prop (issueId response))] else []))
         ++ [("response",
              match JSON_stringify (data response) with
              | Some s => VStr s
              | None => VUndefined
              end)].
Proof.
  js_unfold. repeat js_case; js_proj; split_and!; try done.
  all: by rewrite <- ?app_assoc.
Qed.

(** X1: a connection input that is missing ends the run before any HTTP call:
    the run reports status "error" and fails with the name of the first
    missing input. *)
Theorem missing_connection_input w name :
  first_missing connection_inputs w = Some name →
  fst (run w) = Normal tt
  ∧ requests (snd (run w)) = requests w
  ∧ outputs (snd (run w)) = outputs w ++ [("status", VStr "error")]
  ∧ failures (snd (run w))
    = failures w ++ ["Input required and not supplied: " +:+ name].
Proof.
  intros Hmissing.
  rewrite run_after_operation, (run_operation_missing _ _ Hmissing).
  apply on_error_effects.
Qed.

(** X2: a required input of the operation that is missing makes the pipeline
    throw the name of the first missing one, and the world is left as it
    was: no debug line, no HTTP call. *)
Theorem missing_operation_input operation client baseUrl headers w name :
  first_missing (required_inputs operation) w = Some name →
  dispatch operation client baseUrl headers w
  = (Throw (ThrowError (new_Error ("Input required and not supplied: " +:+ name))), w).
Proof.
  unfold required_inputs, dispatch.
  repeat match goal with
  | |- context [String.eqb operation ?name] => destruct (String.eqb operation name)
  end; try discriminate.
  all: cbn [first_missing]; intros Hmissing; js_unfold.
  all: repeat js_case; simplify_eq; reflexivity.
Qed.

(** X3: [run] never throws and reports its status once, first of all: either
    "success", with no failure mark, or "error" alone, with one failure
    mark. *)
Theorem status_reported_once w :
  fst (run w) = Normal tt
  ∧ ((∃ more,
        outputs (snd (run w)) = outputs w ++ ("status", VStr "success") :: more
        ∧ "status" ∉ (map fst more)
        ∧ failures (snd (run w)) = failures w)
     ∨ (outputs (snd (run w)) = outputs w ++ [("status", VStr "error")]
        ∧ ∃ msg, failures (snd (run w)) = failures w ++ [msg])).
Proof.
  rewrite run_after_operation.
  destruct (silent_run_operation w) as (_ & Hout & Hfail).
  destruct (run_operation w) as [[response | error] w1]; cbn [snd] in *.
  - split; [apply set_outputs_returns|]. left.
    destruct (set_outputs_effects response w1) as (_ & Hfail' & Hout').
    eexists. rewrite Hout', Hfail', Hout, Hfail. split_and!; [reflexivity| |done].
    rewrite !map_app.
    destruct (truthy (prop (issueKey response))),
      (truthy (prop (issueId response)));
      cbn [map fst app]; rewrite ?not_elem_of_cons; split_and!;
      try discriminate; apply not_elem_of_nil.
  - destruct (on_error_effects error w1) as (Hret & _ & Hout' & Hfail').
    split; [exact Hret|]. right. rewrite Hout', Hfail', Hout, Hfail. eauto.
Qed.

(** *** The shapes of the HTTP log of a pipeline *)

(** Turns the outcome of the comparisons of the operation name into
    equations. *)
Ltac js_names :=
  repeat match goal with
  | Heq : String.eqb _ _ = true |- _ => apply String.eqb_eq in Heq
  | Heq : String.eqb _ _ = false |- _ => apply String.eqb_neq in Heq
  end; subst.

(** Shows that a request goes under the REST root with the given headers. *)
Ltac js_targets := split; [eexists; reflexivity | reflexivity].

(** Shows what became of a pipeline after its last reply. *)
Ltac js_outcome :=
  repeat match goal with
  | Hyp : rejected _ = _ |- _ => rewrite Hyp
  end;
  first
    [ reflexivity
    | by eexists
    | split_and!; [discriminate .. |];
      first [ left; by eexists | right; split; [assumption | by eexists] ]
    | first [ left; by eexists | right; split; [assumption | by eexists] ] ].

(** A pipeline makes no call and throws; or one call, which is rejected by
    the network, or answered outside [200,300), or answered inside for an
    operation without read-back; or, for [update_issue] and
    [transition_issue], an accepted write and then a GET, sent with the
    headers as the write call left them.  A call that
    resolved is followed by a throw only for a status outside [200,300) or
    where a property of a null or undefined body is read. *)
Lemma dispatch_shape operation client baseUrl headers w c w' :
  dispatch operation client baseUrl headers w = (c, w') →
  (requests w' = requests w ∧ ∃ e, c = Throw (ThrowError e))
  ∨ (∃ request reply,
       requests w' = requests w ++ [(request, reply)]
       ∧ reply = remote client (requests w) request
       ∧ targets baseUrl headers request
       ∧ match reply with
         | Reject t => c = Throw t
         | Resolve response =>
             if rejected response then ∃ e, c = Throw (ThrowError e)
             else operation ≠ "update_issue" ∧ operation ≠ "transition_issue"
                  ∧ ((∃ r, c = Normal r ∧ data r = result response)
                     ∨ (nullish (result response) = true
                        ∧ ∃ e, c = Throw (ThrowError e)))
         end)
  ∨ (∃ write first read reply,
       requests w' = requests w ++ [(write, Resolve first); (read, reply)]
       ∧ (operation = "update_issue" ∨ operation = "transition_issue")
       ∧ Resolve first = remote client (requests w) write
       ∧ reply = remote client (requests w ++ [(write, Resolve first)]) read
       ∧ targets baseUrl headers write
       ∧ targets baseUrl (headers_after client (requests w) write) read
       ∧ rejected first = false
       ∧ match reply with
         | Reject t => c = Throw t
         | Resolve response =>
             (∃ r, c = Normal r ∧ data r = result response)
             ∨ (nullish (result response) = true
                ∧ ∃ e, c = Throw (ThrowError e))
         end).
Proof.
  intros Hrun. js_unfold.
  repeat js_case; simplify_eq; js_proj; js_names.
  all: first
    [ left; split; [reflexivity | by eexists]
    | right; left; eexists _, _; split; [reflexivity|];
      split; [by symmetry|]; split; [js_targets|]; cbv beta iota; js_outcome
    | right; right; eexists _, _, _, _; rewrite <- app_assoc;
      split; [reflexivity|];
      split; [by eauto|]; split; [by symmetry|]; split; [by symmetry|];
      split; [js_targets|]; split; [js_targets|]; split; [assumption|];
      cbv beta iota; js_outcome ].
Qed.

(** The log of a run is the log of its operation. *)
Lemma run_requests w : requests (snd (run w)) = requests (snd (run_operation w)).
Proof.
  rewrite run_after_operation.
  destruct (run_operation w) as [[response | error] w1]; cbn [snd].
  - apply set_outputs_effects.
  - apply on_error_effects.
Qed.

(** The operation of a run either stops at a missing connection input or is
    the dispatch on the [operation] input, with the client, base URL and
    headers built from the inputs. *)
Lemma run_operation_cases w :
  (∃ name, first_missing connection_inputs w = Some name
           ∧ run_operation w
             = (Throw (ThrowError
                  (new_Error ("Input required and not supplied: " +:+ name))), w))
  ∨ (first_missing connection_inputs w = None
     ∧ run_operation w
       = dispatch (input w "operation") (client_of w) (base_of w)
           default_headers w).
Proof.
  destruct (first_missing connection_inputs w) as [name|] eqn:Hmissing.
  - left. exists name. split; [done|]. by apply run_operation_missing.
  - right. split; [done|]. by apply run_operation_supplied.
Qed.

(** Splits a log known to be of one of the three shapes along a given
    decomposition. *)
Ltac js_split_log Hlog :=
  rewrite ?app_assoc in Hlog; rewrite <- ?app_assoc in Hlog;
  apply app_inv_head in Hlog; simplify_eq/=;
  repeat match goal with
  | Hl : _ = ?before ++ _ :: _ |- _ => is_var before; destruct before; simplify_eq/=
  end.

(** X4: a run makes at most two HTTP calls, and at most one unless the
    operation is [update_issue] or [transition_issue]. *)
Theorem at_most_two_calls w :
  ∃ calls,
    requests (snd (run w)) = requests w ++ calls
    ∧ (length calls ≤ 2)%nat
    ∧ (input w "operation" ≠ "update_issue" →
       input w "operation" ≠ "transition_issue" →
       (length calls ≤ 1)%nat).
Proof.
  rewrite run_requests.
  destruct (run_operation_cases w) as [(name & _ & ->) | (_ & ->)].
  { exists []. rewrite app_nil_r. cbn. split_and!; [done | lia | lia]. }
  destruct (dispatch _ _ _ _ w) as [c w'] eqn:Hrun. cbn [snd].
  destruct (dispatch_shape _ _ _ _ _ _ _ Hrun)
    as [[-> _] | [(request & reply & -> & _)
                 | (write & first & read & reply & -> & Hop & _)]].
  - exists []. rewrite app_nil_r. cbn. split_and!; [done | lia | lia].
  - eexists. split; [reflexivity|]. cbn. split; lia.
  - eexists. split; [reflexivity|]. cbn. split; [lia|].
    intros Hupdate Htransition. by destruct Hop.
Qed.

(** X5: every HTTP call of a run goes to a URL under the base URL followed
    by "/rest/api/3/".  The first call of a run is sent with exactly the two
    JSON headers; a call that follows another one, the read-back of
    [update_issue] and [transition_issue], is sent with the same headers
    object as the call before it left it: with whatever the method of the
    client carrying the [jira_email] and [jira_api_token] inputs wrote into
    it. *)
Theorem calls_of_a_run w before request reply after :
  requests (snd (run w)) = requests w ++ before ++ (request, reply) :: after →
  (∃ path, url_of request = base_of w +:+ "/rest/api/3/" +:+ path)
  ∧ headers_of request
    = match before with
      | [] => default_headers
      | (previous, _) :: _ =>
          headers_after (client_of w) (requests w) previous
      end
  ∧ (∀ previous answer earlier,
       before = earlier ++ [(previous, answer)] →
       earlier = []
       ∧ headers_of previous = default_headers
       ∧ ∃ first, answer = Resolve first ∧ 200 ≤ statusCode first < 300).
Proof.
  rewrite run_requests.
  destruct (run_operation_cases w) as [(name & _ & ->) | (_ & ->)]; cbn [snd].
  { intros Hlog. rewrite <- (app_nil_r (requests w)) in Hlog at 1.
    js_split_log Hlog. }
  destruct (dispatch _ _ _ _ w) as [c w'] eqn:Hrun. cbn [snd].
  destruct (dispatch_shape _ _ _ _ _ _ _ Hrun)
    as [[-> _] | [(request1 & reply1 & -> & _ & [Hurl Hheaders] & _)
                 | (write & first & read & reply2 & -> & _ & _ & _
                    & [Hurl Hheaders] & [Hurl' Hheaders'] & Hfirst & _)]].
  - intros Hlog. rewrite <- (app_nil_r (requests w)) in Hlog at 1.
    js_split_log Hlog.
  - intros Hlog. js_split_log Hlog.
    split_and!; [done | done |].
    intros ? ? earlier Hbefore. by destruct earlier.
  - intros Hlog. js_split_log Hlog.
    + split_and!; [done | done |].
      intros ? ? earlier Hbefore. by destruct earlier.
    + split_and!; [done | done |].
      intros previous answer earlier Hbefore.
      destruct earlier as [|? [|]]; simplify_eq/=.
      split_and!; [done | done |].
      exists first. split; [done|]. by apply rejected_false.
Qed.

(** X6: a call the network rejects is the last call of the run: the run
    reports status "error" and fails with the message of what the client
    threw. *)
Theorem rejected_call_ends_the_run w before request t after :
  requests (snd (run w)) = requests w ++ before ++ (request, Reject t) :: after →
  after = []
  ∧ outputs (snd (run w)) = outputs w ++ [("status", VStr "error")]
  ∧ failures (snd (run w))
    = failures w
      ++ [match t with
          | ThrowError e => message e
          | ThrowValue _ => "An unknown error occurred"
          end].
Proof.
  rewrite run_requests, run_after_operation.
  destruct (silent_run_operation w) as (_ & Hout & Hfail).
  destruct (run_operation_cases w) as [(name & _ & Hop) | (_ & Hop)];
    rewrite Hop in *; cbn [snd] in *.
  { intros Hlog. rewrite <- (app_nil_r (requests w)) in Hlog at 1.
    js_split_log Hlog. }
  destruct (dispatch _ _ _ _ w) as [c w'] eqn:Hrun. cbn [snd] in *.
  destruct (dispatch_shape _ _ _ _ _ _ _ Hrun)
    as [[-> _] | [(request1 & reply1 & -> & _ & _ & Hc)
                 | (write & first & read & reply2 & -> & _ & _ & _ & _ & _ & _ & Hc)]].
  - intros Hlog. rewrite <- (app_nil_r (requests w)) in Hlog at 1.
    js_split_log Hlog.
  - intros Hlog. js_split_log Hlog.
    destruct (on_error_effects t w') as (_ & _ & -> & ->).
    by rewrite Hout, Hfail.
  - intros Hlog. js_split_log Hlog.
    destruct (on_error_effects t w') as (_ & _ & -> & ->).
    by rewrite Hout, Hfail.
Qed.

(** X7: a run that reports status "success" has made one or two calls that
    all resolved, the first with a status code in [200,300), and its
    [response] output, the last one, is the serialization of the body of
    the last reply. *)
Theorem success_reports_last_body w more :
  outputs (snd (run w)) = outputs w ++ ("status", VStr "success") :: more →
  ∃ before request response,
    requests (snd (run w)) = requests w ++ before ++ [(request, Resolve response)]
    ∧ (length before ≤ 1)%nat
    ∧ (∀ request1 reply1 rest,
         before ++ [(request, Resolve response)] = (request1, reply1) :: rest →
         ∃ first, reply1 = Resolve first ∧ 200 ≤ statusCode first < 300)
    ∧ last more
      = Some ("response",
              match JSON_stringify (result response) with
              | Some s => VStr s
              | None => VUndefined
              end).
Proof.
  rewrite run_requests, run_after_operation.
  destruct (silent_run_operation w) as (_ & Hout & Hfail).
  destruct (run_operation_cases w) as [(name & _ & Hop) | (_ & Hop)];
    rewrite Hop in *; cbn [snd] in *.
  { destruct (on_error_effects
                (ThrowError (new_Error ("Input required and not supplied: " +:+ name))) w)
      as (_ & _ & -> & _).
    intros Heq. apply app_inv_head in Heq. discriminate. }
  destruct (dispatch _ _ _ _ w) as [c w'] eqn:Hrun. cbn [snd] in *.
  assert (Hsuccess : ∀ r, c = Normal r →
            outputs (snd (set_outputs r w')) = outputs w ++ ("status", VStr "success") :: more →
            last more = Some ("response",
                              match JSON_stringify (data r) with
                              | Some s => VStr s
                              | None => VUndefined
                              end)).
  { intros r _ Heq.
    destruct (set_outputs_effects r w') as (_ & _ & Hset).
    rewrite Hset, Hout in Heq. apply app_inv_head in Heq.
    injection Heq as <-. by rewrite last_snoc. }
  assert (Hfailure : ∀ t, c = Throw t →
            outputs (snd (on_error t w')) = outputs w ++ ("status", VStr "success") :: more →
            False).
  { intros t _ Heq.
    destruct (on_error_effects t w') as (_ & _ & Herr & _).
    rewrite Herr, Hout in Heq. apply app_inv_head in Heq. discriminate. }
  destruct (dispatch_shape _ _ _ _ _ _ _ Hrun)
    as [[_ [e ->]] | [(request1 & reply1 & -> & _ & _ & Hc)
                     | (write & first & read & reply2 & -> & _ & _ & _ & _ & _
                        & Hfirst & Hc)]].
  - intros Heq. destruct (Hfailure _ eq_refl Heq).
  - destruct reply1 as [response | t].
    + destruct (rejected response) eqn:Hrejected.
      * destruct Hc as [e ->]. intros Heq. destruct (Hfailure _ eq_refl Heq).
      * destruct Hc as (_ & _ & [(r & -> & Hdata) | (_ & e & ->)]).
        -- intros Heq. exists [], request1, response.
           split_and!; [done | cbn; lia | | ].
           ++ intros ? ? ? [= <- <- <-]. exists response.
              split; [done|]. by apply rejected_false.
           ++ rewrite <- Hdata. by apply Hsuccess.
        -- intros Heq. destruct (Hfailure _ eq_refl Heq).
    + subst c. intros Heq. destruct (Hfailure _ eq_refl Heq).
  - destruct reply2 as [response | t].
    + destruct Hc as [(r & -> & Hdata) | (_ & e & ->)].
      * intros Heq. exists [(write, Resolve first)], read, response.
        split_and!; [done | cbn; lia | | ].
        -- intros ? ? ? [= <- <- <-]. exists first.
           split; [done|]. by apply rejected_false.
        -- rewrite <- Hdata. by apply Hsuccess.
      * intros Heq. destruct (Hfailure _ eq_refl Heq).
    + subst c. intros Heq. destruct (Hfailure _ eq_refl Heq).
Qed.

(** *** The base URL *)

Lemma length_append_slash u : String.length (u +:+ "/") = S (String.length u).
Proof. induction u as [|c u IH]; [reflexivity|]. simpl. by rewrite IH. Qed.

Lemma substring_init_append u v :
  substring 0 (String.length u) (u +:+ v) = u.
Proof.
  induction u as [|c u IH]; simpl.
  - by destruct v.
  - by rewrite IH.
Qed.

Lemma substring_tail_append u v :
  substring (String.length u) (String.length v) (u +:+ v) = v.
Proof.
  induction u as [|c u IH]; simpl; [|done].
  induction v as [|d v IHv]; simpl; [done|]. by f_equal.
Qed.

Lemma endsWith_append_slash u : endsWith (u +:+ "/") "/" = true.
Proof.
  unfold endsWith. rewrite length_append_slash.
  change (String.length "/") with 1%nat.
  replace (S (String.length u) - 1)%nat with (String.length u) by lia.
  change 1%nat with (String.length "/") at 2.
  rewrite substring_tail_append. reflexivity.
Qed.

Lemma slice_append_slash u : slice_0_m1 (u +:+ "/") = u.
Proof.
  unfold slice_0_m1. rewrite length_append_slash.
  replace (S (String.length u) - 1)%nat with (String.length u) by lia.
  apply substring_init_append.
Qed.

Lemma endsWith_slash_inv s : endsWith s "/" = true → ∃ u, s = u +:+ "/".
Proof.
  unfold endsWith. change (String.length "/") with 1%nat.
  induction s as [|c s IH]; [discriminate|].
  destruct s as [|d s].
  - intros [_ Heq%String.eqb_eq]%andb_true_iff. exists "". exact Heq.
  - intros [_ Heq]%andb_true_iff. destruct IH as [u ->].
    + apply andb_true_iff. split; [reflexivity|].
      replace (String.length (String c (String d s)) - 1)%nat
        with (S (String.length (String d s) - 1)) in Heq by (simpl; lia).
      exact Heq.
    + by exists (String c u).
Qed.

(** X8: [run] hands the pipelines the [jira_base_url] input without one
    trailing slash: an input [u/] gives [u], an input that does not end
    with a slash is passed as it is, and no more than one slash is
    removed. *)
Theorem trailing_slash_stripped w :
  first_missing connection_inputs w = None →
  ∃ baseUrl,
    run_operation w
    = dispatch (input w "operation") (client_of w) baseUrl default_headers w
    ∧ (∀ u, input w "jira_base_url" = u +:+ "/" → baseUrl = u)
    ∧ ((∀ u, input w "jira_base_url" ≠ u +:+ "/") →
       baseUrl = input w "jira_base_url").
Proof.
  intros Hsupplied. exists (base_of w).
  split; [by apply run_operation_supplied|]. unfold base_of. split.
  - intros u ->. by rewrite endsWith_append_slash, slice_append_slash.
  - intros Hno.
    destruct (endsWith (input w "jira_base_url") "/") eqn:Hends; [|done].
    destruct (endsWith_slash_inv _ Hends) as [u Hu]. by destruct (Hno u).
Qed.

(** *** The pipelines the claims leave out *)

(** X9: [create_issue] takes the issue key and the issue id from the [key]
    and [id] properties of an accepted reply; when the body of that reply is
    null or undefined it throws instead, on reading [key], although the
    remote service accepted the request; a reply outside [200,300) throws
    "Failed to create issue: " with the status code and the body. *)
Theorem create_issue_result client baseUrl headers w c w' request response :
  createIssue client baseUrl headers w = (c, w') →
  requests w' = requests w ++ [(request, Resolve response)] →
  (200 ≤ statusCode response < 300 →
   nullish (result response) = false →
   c = Normal {| issueKey := Some (property (result response) "key");
                 issueId := Some (property (result response) "id");
                 data := result response |})
  ∧ (200 ≤ statusCode response < 300 →
     nullish (result response) = true →
     c = Throw (ThrowError (new_Error
           ("Cannot read properties of "
            +:+ (if result response is VNull then "null" else "undefined")
            +:+ " (reading 'key')"))))
  ∧ (statusCode response < 200 ∨ 300 ≤ statusCode response →
     c = Throw (ThrowError (new_Error
           ("Failed to create issue: " +:+ pretty (statusCode response) +:+ " "
            +:+ template (JSON_stringify (result response)))))).
Proof.
  intros Hrun Hlog. js_unfold.
  repeat js_case; simplify_eq; js_proj; js_log; js_range.
  all: split_and!; intros; try done; try lia; congruence.
Qed.

(** X10: with [issue_key] supplied, [get_issue] makes one GET of
    [/rest/api/3/issue/<issue_key>]; an accepted reply with a body gives the
    input issue key, the [id] property of the body and the body; a rejected
    promise is rethrown; a status code outside [200,300) throws "Failed to
    get issue: " with the status code and the body. *)
Theorem get_issue_request client baseUrl headers w :
  input w "issue_key" ≠ "" →
  let request :=
    GetJson (baseUrl +:+ "/rest/api/3/issue/" +:+ input w "issue_key") headers in
  let reply := remote client (requests w) request in
  let outcome := getIssue client baseUrl headers w in
  requests (snd outcome) = requests w ++ [(request, reply)]
  ∧ (∀ t, reply = Reject t → fst outcome = Throw t)
  ∧ (∀ response,
       reply = Resolve response →
       (200 ≤ statusCode response < 300 →
        nullish (result response) = false →
        fst outcome
        = Normal {| issueKey := Some (VStr (input w "issue_key"));
                    issueId := Some (property (result response) "id");
                    data := result response |})
       ∧ (statusCode response < 200 ∨ 300 ≤ statusCode response →
          fst outcome
          = Throw (ThrowError (new_Error
              ("Failed to get issue: " +:+ pretty (statusCode response) +:+ " "
               +:+ template (JSON_stringify (result response))))))).
Proof.
  intros Hkey request reply outcome. subst request reply outcome.
  apply nonempty_true in Hkey.
  js_unfold. rewrite Hkey. js_proj.
  split_and!.
  - repeat js_case; reflexivity.
  - intros t ->. reflexivity.
  - intros response ->. cbv beta iota. split.
    + intros Hrange%rejected_false Hbody. by rewrite Hrange, Hbody.
    + intros Hout%rejected_true. by rewrite Hout.
Qed.

(** X11: with [project_key] supplied, [get_project] makes one GET of
    [/rest/api/3/project/<project_key>]; every accepted reply, whatever its
    body (null included), gives a result with that body as data and neither
    issue key nor issue id; a status code outside [200,300) throws "Failed
    to get project: " with the status code and the body. *)
Theorem get_project_request client baseUrl headers w :
  input w "project_key" ≠ "" →
  let request :=
    GetJson (baseUrl +:+ "/rest/api/3/project/" +:+ input w "project_key")
      headers in
  let reply := remote client (requests w) request in
  let outcome := getProject client baseUrl headers w in
  requests (snd outcome) = requests w ++ [(request, reply)]
  ∧ (∀ t, reply = Reject t → fst outcome = Throw t)
  ∧ (∀ response,
       reply = Resolve response →
       (200 ≤ statusCode response < 300 →
        fst outcome
        = Normal {| issueKey := None; issueId := None; data := result response |})
       ∧ (statusCode response < 200 ∨ 300 ≤ statusCode response →
          fst outcome
          = Throw (ThrowError (new_Error
              ("Failed to get project: " +:+ pretty (statusCode response) +:+ " "
               +:+ template (JSON_stringify (result response))))))).
Proof.
  intros Hkey request reply outcome. subst request reply outcome.
  apply nonempty_true in Hkey.
  js_unfold. rewrite Hkey. js_proj.
  split_and!.
  - repeat js_case; reflexivity.
  - intros t ->. reflexivity.
  - intros response ->. cbv beta iota. split.
    + intros Hrange%rejected_false. by rewrite Hrange.
    + intros Hout%rejected_true. by rewrite Hout.
Qed.

(** X12: with its required inputs supplied, [transition_issue] first posts
    [{transition: {id: <transition_id>}}] to
    [/rest/api/3/issue/<issue_key>/transitions]. *)
Theorem transition_issue_request client baseUrl headers w :
  input w "issue_key" ≠ "" →
  input w "transition_id" ≠ "" →
  let request :=
    PostJson
      (baseUrl +:+ "/rest/api/3/issue/" +:+ input w "issue_key" +:+ "/transitions")
      (VObj {[ "transition" := VObj {[ "id" := VStr (input w "transition_id") ]} ]})
      headers in
  ∃ more,
    requests (snd (transitionIssue client baseUrl headers w))
    = requests w ++ (request, remote client (requests w) request) :: more.
Proof.
  intros Hkey Hid request. subst request.
  apply nonempty_true in Hkey, Hid.
  js_unfold. rewrite Hkey, Hid. js_proj.
  repeat js_case; js_proj; rewrite <- ?app_assoc; by eexists.
Qed.

(** X13: with [issue_key] supplied and [fields_json] empty or parseable,
    [update_issue] first puts [{fields: ...}] to
    [/rest/api/3/issue/<issue_key>], where the fields are the description
    when it is supplied and the properties of the parsed [fields_json] on
    top; with neither supplied the fields are empty and the PUT is still
    made. *)
Theorem update_issue_body client baseUrl headers w extra :
  input w "issue_key" ≠ "" →
  (input w "fields_json" = "" ∧ extra = ∅)
  ∨ (input w "fields_json" ≠ ""
     ∧ ∃ v, JSON_parse (input w "fields_json") = Parsed v
            ∧ extra = own_properties v) →
  let described : gmap string value :=
    if nonempty (input w "description")
    then {[ "description" := VStr (input w "description") ]}
    else ∅ in
  (∃ reply more,
     requests (snd (updateIssue client baseUrl headers w))
     = requests w
       ++ (PutJson (baseUrl +:+ "/rest/api/3/issue/" +:+ input w "issue_key")
             (VObj {[ "fields" := VObj (extra ∪ described) ]}) headers, reply)
          :: more)
  ∧ (input w "description" = "" → input w "fields_json" = "" →
     extra ∪ described = ∅).
Proof.
  intros Hkey Hjson described. apply nonempty_true in Hkey. split.
  - destruct (updateIssue client baseUrl headers w) as [c w'] eqn:Hrun.
    subst described. js_unfold. rewrite Hkey in Hrun.
    destruct Hjson as [[Hempty ->] | (Hsome & v & Hparse & ->)].
    + rewrite (left_id_L ∅ (∪)). rewrite Hempty in Hrun.
      cbn [nonempty String.eqb negb] in Hrun.
      repeat js_case; simplify_eq; js_proj; rewrite <- ?app_assoc;
        rewrite ?insert_empty; by eexists _, _.
    + apply nonempty_true in Hsome. rewrite Hsome, Hparse in Hrun.
      repeat js_case; simplify_eq; js_proj; rewrite <- ?app_assoc;
        rewrite ?insert_empty; by eexists _, _.
  - intros Hdescription Hempty. subst described.
    destruct Hjson as [[_ ->] | (Hsome & _)]; [|done].
    rewrite Hdescription. cbn. by rewrite (left_id_L ∅ (∪)).
Qed.

(** X14: with its required inputs supplied, the body [create_version] posts
    to [/rest/api/3/version] always has [name] and [projectId], has
    [description], [startDate] and [releaseDate] exactly when the input is
    not empty, and has no key besides these and [archived] and [released];
    every accepted reply, whatever its body, gives a result with that body
    as data. *)
Theorem create_version_body client baseUrl headers w :
  input w "project_id" ≠ "" →
  input w "version_name" ≠ "" →
  let optional (name : string) : option value :=
    if nonempty (input w name) then Some (VStr (input w name)) else None in
  let outcome := createVersion client baseUrl headers w in
  ∃ body reply,
    requests (snd outcome)
    = requests w
      ++ [(PostJson (baseUrl +:+ "/rest/api/3/version") (VObj body) headers, reply)]
    ∧ body !! "name" = Some (VStr (input w "version_name"))
    ∧ body !! "projectId" = Some (VStr (input w "project_id"))
    ∧ body !! "description" = optional "version_description"
    ∧ body !! "startDate" = optional "version_start_date"
    ∧ body !! "releaseDate" = optional "version_release_date"
    ∧ (∀ key, body !! key ≠ None →
         key ∈ ["name"; "projectId"; "description"; "archived"; "released";
                "startDate"; "releaseDate"])
    ∧ (∀ response,
         reply = Resolve response →
         200 ≤ statusCode response < 300 →
         fst outcome
         = Normal {| issueKey := None; issueId := None; data := result response |}).
Proof.
  intros Hproject Hname optional outcome. subst optional outcome.
  apply nonempty_true in Hproject, Hname.
  js_unfold. rewrite Hproject, Hname. js_proj.
  repeat js_case; js_proj.
  all: eexists _, _; split; [reflexivity|].
  all: split_and!;
    [ by rewrite ?lookup_insert_ne by discriminate; rewrite lookup_insert_eq
    | by rewrite ?lookup_insert_ne by discriminate; rewrite lookup_singleton_eq
    | rewrite ?lookup_insert_ne by discriminate;
      first [ by rewrite lookup_insert_eq | by rewrite lookup_singleton_ne ]
    | rewrite ?lookup_insert_ne by discriminate;
      first [ by rewrite lookup_insert_eq | by rewrite lookup_singleton_ne ]
    | first [ by rewrite lookup_insert_eq
            | rewrite ?lookup_insert_ne by discriminate;
              by rewrite lookup_singleton_ne ]
    | intros key Hkey;
      repeat (rewrite lookup_insert in Hkey;
              case_decide; [subst; rewrite !elem_of_cons; by auto 10|]);
      rewrite lookup_singleton in Hkey;
      case_decide; [subst; rewrite !elem_of_cons; by auto 10 | done]
    | intros response Hreply Hrange; simplify_eq; js_range; try lia; done ].
Qed.

(** X15: a supported operation reaches the network exactly when all its
    required inputs are supplied and, for [create_issue] and
    [update_issue], a non-empty [fields_json] parses. *)
Theorem network_contacted_iff operation client baseUrl headers w :
  operation ∈ supported_operations →
  (∃ call more,
     requests (snd (dispatch operation client baseUrl headers w))
     = requests w ++ call :: more)
  ↔ first_missing (required_inputs operation) w = None
    ∧ (operation = "create_issue" ∨ operation = "update_issue" →
       input w "fields_json" ≠ "" →
       ∃ v, JSON_parse (input w "fields_json") = Parsed v).
Proof.
  unfold supported_operations. rewrite !elem_of_cons, elem_of_nil.
  intros Hop.
  destruct (dispatch operation client baseUrl headers w) as [c w'] eqn:Hrun.
  cbn [snd].
  repeat destruct Hop as [-> | Hop]; [.. | done].
  all: unfold required_inputs; js_unfold; js_literals; cbn [first_missing].
  all: repeat js_case; simplify_eq; js_proj.
  all: split;
    [ intros (call & more & Hlog); js_log;
      (split; [done|]; intros Hwhich Hsome; apply nonempty_true in Hsome;
       first [ by eexists | congruence | by destruct Hwhich ])
    | intros [Hmissing Hjson]; try discriminate;
      first
        [ eexists _, _; rewrite <- ?app_assoc; reflexivity
        | destruct Hjson as [v Hv];
          [by auto | by apply nonempty_true | discriminate] ] ].
Qed.

End Properties.


(** ** The theorems at the inputs of the test suite *)

(** C1 at the tests "Updates a Jira issue successfully" and "Transitions a
    Jira issue successfully", with a client that writes into the headers
    object as the client library does: the write call is sent with the two
    headers of [run], the read-back with the four the write call left. *)
Lemma update_transition_calls_witness :
  let P := Fixture.writing_platform Fixture.allSucceed in
  let sent : gmap string string :=
    <["accept" := "application/json"]>
      (<["content-type" := "application/json"]> Fixture.headers) in
  let issue := "https://your-domain.atlassian.net/rest/api/3/issue/PROJECT-123" in
  let returned :=
    Normal {| issueKey := Some (VStr "PROJECT-123");
              issueId := Some (VStr "10000");
              data := result Fixture.mockSuccessResponse |} in
  let outcome operation :=
    @dispatch P operation Fixture.client Fixture.baseUrl Fixture.headers
      (initial (Fixture.getInputMockFn operation)) in
  (("update_issue" = "update_issue" ∨ "update_issue" = "transition_issue")
   ∧ outcome "update_issue" = (returned, snd (outcome "update_issue"))
   ∧ ∃ body,
       requests (snd (outcome "update_issue"))
       = [(PutJson issue body Fixture.headers,
           Resolve Fixture.mockSuccessResponse);
          (GetJson issue sent, Resolve Fixture.mockSuccessResponse)])
  ∧ (("transition_issue" = "update_issue"
      ∨ "transition_issue" = "transition_issue")
     ∧ outcome "transition_issue" = (returned, snd (outcome "transition_issue"))
     ∧ requests (snd (outcome "transition_issue"))
       = [(PostJson (issue +:+ "/transitions")
             (VObj {[ "transition" := VObj {[ "id" := VStr "31" ]} ]})
             Fixture.headers,
           Resolve Fixture.mockSuccessResponse);
          (GetJson issue sent, Resolve Fixture.mockSuccessResponse)]).
Proof.
  intros P sent issue returned outcome.
  assert (Hupdate : "update_issue" = "update_issue"
                    ∨ "update_issue" = "transition_issue")
    by (left; reflexivity).
  assert (Htransition : "transition_issue" = "update_issue"
                        ∨ "transition_issue" = "transition_issue")
    by (right; reflexivity).
  assert (Hput : outcome "update_issue"
                 = (returned, snd (outcome "update_issue")))
    by (vm_compute; reflexivity).
  assert (Hpost : outcome "transition_issue"
                  = (returned, snd (outcome "transition_issue")))
    by (vm_compute; reflexivity).
  assert (Hrange : 200 ≤ statusCode Fixture.mockSuccessResponse < 300)
    by (simpl; lia).
  split; (split; [assumption|]); (split; [assumption|]).
  - pose proof (@update_transition_calls P _ _ _ _ _ _ _ Hupdate Hput) as Hcalls.
    cbv zeta in Hcalls. destruct Hcalls as (_ & _ & Hread & Hmade).
    destruct Hmade as (write & rest & Hwrites & Hlog).
    { left. split_and!;
        [reflexivity | vm_compute; discriminate | left; vm_compute; reflexivity]. }
    destruct Hwrites as [[_ [body ->]] | [Hno _]]; [|discriminate Hno].
    destruct (Hread _ Fixture.mockSuccessResponse _ Hlog Hrange) as (-> & _ & _).
    exists body. rewrite Hlog. vm_compute. reflexivity.
  - pose proof (@update_transition_calls P _ _ _ _ _ _ _ Htransition Hpost)
      as Hcalls.
    cbv zeta in Hcalls. destruct Hcalls as (_ & _ & Hread & Hmade).
    destruct Hmade as (write & rest & Hwrites & Hlog).
    { right. split_and!;
        [reflexivity | vm_compute; discriminate | vm_compute; discriminate]. }
    destruct Hwrites as [[Hno _] | [_ ->]]; [discriminate Hno|].
    destruct (Hread _ Fixture.mockSuccessResponse _ Hlog Hrange) as (-> & _ & _).
    rewrite Hlog. vm_compute. reflexivity.
Defined.

(** C2 at the inputs of the test "Creates a Jira issue successfully" with a
    [fields_json] that adds a field and overrides the summary. *)
Lemma create_issue_body_witness :
  let w :=
    initial (<["fields_json" := Fixture.dq "{'x':'y','summary':'From JSON'}"]>
               (Fixture.getInputMockFn "create_issue")) in
  let extra : gmap string value :=
    {[ "x" := VStr "y"; "summary" := VStr "From JSON" ]} in
  let fields : gmap string value :=
    extra ∪ <["description" := VStr "Test description"]>
              {[ "project" := VObj {[ "key" := VStr "PROJECT" ]};
                 "issuetype" := VObj {[ "name" := VStr "Bug" ]};
                 "summary" := VStr "Test issue" ]} in
  (input w "project_key" ≠ "" ∧ input w "issue_type" ≠ "" ∧ input w "summary" ≠ "")
  ∧ (∃ reply,
       requests (snd (@createIssue (Fixture.platform Fixture.allSucceed)
                        Fixture.client Fixture.baseUrl Fixture.headers w))
       = [(PostJson "https://your-domain.atlassian.net/rest/api/3/issue"
             (VObj {[ "fields" := VObj fields ]}) Fixture.headers, reply)])
  ∧ fields !! "x" = Some (VStr "y")
  ∧ fields !! "summary" = Some (VStr "From JSON")
  ∧ fields !! "description" = Some (VStr "Test description").
Proof.
  intros w extra fields.
  assert (Hproject : input w "project_key" ≠ "") by (vm_compute; discriminate).
  assert (Htype : input w "issue_type" ≠ "") by (vm_compute; discriminate).
  assert (Hsummary : input w "summary" ≠ "") by (vm_compute; discriminate).
  assert (Hjson : (input w "fields_json" = "" ∧ extra = ∅)
                  ∨ (input w "fields_json" ≠ ""
                     ∧ ∃ v, @JSON_parse (Fixture.platform Fixture.allSucceed)
                              (input w "fields_json") = Parsed v
                            ∧ extra = own_properties v)).
  { right. split; [vm_compute; discriminate|].
    exists (VObj extra). split; vm_compute; reflexivity. }
  split; [split_and!; assumption|].
  destruct (@create_issue_body (Fixture.platform Fixture.allSucceed)
              Fixture.client Fixture.baseUrl Fixture.headers w extra
              Hproject Htype Hsummary Hjson) as (Hposted & Hwins & Hkept).
  split; [exact Hposted|]. split_and!.
  - refine (Hwins "x" _ _). vm_compute. reflexivity.
  - refine (Hwins "summary" _ _). vm_compute. reflexivity.
  - refine (eq_trans (Hkept "description" _) _); vm_compute; reflexivity.
Defined.

(** C3 at the inputs of the test "Creates a version in Jira successfully". *)
Lemma create_version_flags_witness :
  let w :=
    initial (<["project_id" := "10000"]> (<["version_name" := "v1.0.0"]>
            (<["version_description" := "First version"]>
            (<["version_archived" := "false"]> (<["version_released" := "true"]>
            (<["version_start_date" := "2025-01-01"]>
            (<["version_release_date" := "2025-07-31"]>
            (Fixture.getInputMockFn "create_version")))))))) in
  let P := Fixture.platform Fixture.allSucceed in
  (input w "project_id" ≠ "" ∧ input w "version_name" ≠ "")
  ∧ (∃ body reply,
       requests (snd (@createVersion P Fixture.client Fixture.baseUrl
                        Fixture.headers w))
       = [(PostJson "https://your-domain.atlassian.net/rest/api/3/version"
             (VObj body) Fixture.headers, reply)]
       ∧ body !! "archived" = Some (VBool false)
       ∧ body !! "released" = Some (VBool true))
  ∧ ("version_archived" = "version_archived"
     ∨ "version_archived" = "version_released")
  ∧ fst (@createVersion P Fixture.client Fixture.baseUrl Fixture.headers
           (with_inputs (delete "version_archived" (inputs w)) w))
    = fst (@createVersion P Fixture.client Fixture.baseUrl Fixture.headers
             (with_inputs (<["version_archived" := "false"]> (inputs w)) w)).
Proof.
  intros w P.
  assert (Hproject : input w "project_id" ≠ "") by (vm_compute; discriminate).
  assert (Hname : input w "version_name" ≠ "") by (vm_compute; discriminate).
  assert (Hflag : "version_archived" = "version_archived"
                  ∨ "version_archived" = "version_released")
    by (left; reflexivity).
  destruct (@create_version_flags P Fixture.client Fixture.baseUrl
              Fixture.headers w) as [Hposted Hsame].
  split; [split; assumption|]. split.
  - destruct (Hposted Hproject Hname) as (body & reply & Hlog & Harchived & Hreleased).
    exists body, reply. split; [exact Hlog|]. split.
    + refine (eq_trans Harchived _). vm_compute. reflexivity.
    + refine (eq_trans Hreleased _). vm_compute. reflexivity.
  - split; [exact Hflag|]. exact (proj1 (Hsame _ Hflag)).
Defined.

(** C4 at the operation name "noop". *)
Lemma unsupported_operation_witness :
  let w := initial (Fixture.getInputMockFn "noop") in
  let P := Fixture.platform Fixture.allSucceed in
  (input w "jira_base_url" ≠ "" ∧ input w "jira_email" ≠ ""
   ∧ input w "jira_api_token" ≠ "" ∧ input w "operation" = "noop"
   ∧ "noop" ≠ "" ∧ "noop" ∉ supported_operations)
  ∧ requests (snd (@run P w)) = []
  ∧ outputs (snd (@run P w)) = [("status", VStr "error")]
  ∧ failures (snd (@run P w)) = ["Unsupported operation: noop"].
Proof.
  intros w P.
  assert (Hurl : input w "jira_base_url" ≠ "") by (vm_compute; discriminate).
  assert (Hemail : input w "jira_email" ≠ "") by (vm_compute; discriminate).
  assert (Htoken : input w "jira_api_token" ≠ "") by (vm_compute; discriminate).
  assert (Hop : input w "operation" = "noop") by (vm_compute; reflexivity).
  assert (Hne : "noop" ≠ "") by discriminate.
  assert (Hunsupported : "noop" ∉ supported_operations).
  { intros Hin.
    repeat (apply elem_of_cons in Hin as [Heq | Hin]; [discriminate Heq|]).
    by apply elem_of_nil in Hin. }
  split; [split_and!; assumption|].
  exact (proj2 (@unsupported_operation P w "noop" Hurl Hemail Htoken Hop Hne
                  Hunsupported)).
Defined.

(** C5 at the test "Handles invalid JSON in fields_json". *)
Lemma invalid_fields_json_witness :
  let w :=
    initial (<["fields_json" := "{invalid:json}"]>
               (Fixture.getInputMockFn "create_issue")) in
  let P := Fixture.platform Fixture.allSucceed in
  (("create_issue" = "create_issue"
    ∧ input w "project_key" ≠ "" ∧ input w "issue_type" ≠ ""
    ∧ input w "summary" ≠ "")
   ∨ ("create_issue" = "update_issue" ∧ input w "issue_key" ≠ ""))
  ∧ input w "fields_json" ≠ ""
  ∧ @JSON_parse P (input w "fields_json") = SyntaxError "Unexpected token in JSON"
  ∧ @dispatch P "create_issue" Fixture.client Fixture.baseUrl Fixture.headers w
    = (Throw (ThrowError (@new_Error P
         "Invalid fields_json: Unexpected token in JSON")), w).
Proof.
  intros w P.
  assert (Hinputs : ("create_issue" = "create_issue"
                     ∧ input w "project_key" ≠ "" ∧ input w "issue_type" ≠ ""
                     ∧ input w "summary" ≠ "")
                    ∨ ("create_issue" = "update_issue" ∧ input w "issue_key" ≠ "")).
  { left. split_and!; [reflexivity | vm_compute; discriminate ..]. }
  assert (Hjson : input w "fields_json" ≠ "") by (vm_compute; discriminate).
  assert (Hparse : @JSON_parse P (input w "fields_json")
                   = SyntaxError "Unexpected token in JSON")
    by (vm_compute; reflexivity).
  split_and!; [assumption .. |].
  exact (@invalid_fields_json P "create_issue" Fixture.client Fixture.baseUrl
           Fixture.headers w _ Hinputs Hjson Hparse).
Defined.

(** C6 at the test "Handles API errors correctly": the POST of
    [create_issue] is answered with status 400. *)
Lemma remote_rejection_witness :
  let w := initial (Fixture.getInputMockFn "create_issue") in
  let P :=
    Fixture.platform
      {| Fixture.mockGetJson := Resolve Fixture.mockErrorResponse;
         Fixture.mockPostJson := Resolve Fixture.mockErrorResponse;
         Fixture.mockPutJson := Resolve Fixture.mockErrorResponse |} in
  let request :=
    PostJson "https://your-domain.atlassian.net/rest/api/3/issue"
      (VObj {[ "fields" := VObj
         {[ "description" := VStr "Test description";
            "project" := VObj {[ "key" := VStr "PROJECT" ]};
            "issuetype" := VObj {[ "name" := VStr "Bug" ]};
            "summary" := VStr "Test issue" ]} ]})
      Fixture.headers in
  @run P w = (Normal tt, snd (@run P w))
  ∧ requests (snd (@run P w)) = [(request, Resolve Fixture.mockErrorResponse)]
  ∧ (400 < 200 ∨ 300 ≤ 400)
  ∧ outputs (snd (@run P w)) = [("status", VStr "error")]
  ∧ ∃ prefix,
      failures (snd (@run P w))
      = [prefix +:+ "400 "
         +:+ template (Fixture.stringify (result Fixture.mockErrorResponse))].
Proof.
  intros w P request.
  assert (Hrun : @run P w = (Normal tt, snd (@run P w)))
    by (vm_compute; reflexivity).
  assert (Hlog : requests (snd (@run P w))
                 = requests w ++ (request, Resolve Fixture.mockErrorResponse) :: [])
    by (vm_compute; reflexivity).
  assert (Hout : statusCode Fixture.mockErrorResponse < 200
                 ∨ 300 ≤ statusCode Fixture.mockErrorResponse)
    by (right; vm_compute; discriminate).
  split; [exact Hrun|]. split; [exact Hlog|]. split; [exact Hout|].
  exact (proj2 (@remote_rejection P w _ _ _ _ _ Hrun Hlog Hout)).
Defined.

(** C7 as amended, at the test "Handles invalid operation". *)
Lemma error_path_witness :
  let w := initial (Fixture.getInputMockFn "invalid_operation") in
  let P := Fixture.platform Fixture.allSucceed in
  @try_block P w
  = (Throw (ThrowError (@new_Error P "Unsupported operation: invalid_operation")), w)
  ∧ fst (@run P w) = Normal tt
  ∧ outputs (snd (@run P w)) = [("status", VStr "error")]
  ∧ failures (snd (@run P w)) = ["Unsupported operation: invalid_operation"].
Proof.
  intros w P.
  assert (Hthrow : @try_block P w
                   = (Throw (ThrowError (@new_Error P
                        "Unsupported operation: invalid_operation")), w))
    by (vm_compute; reflexivity).
  split; [exact Hthrow|].
  exact (@error_path P w _ _ Hthrow).
Defined.

(** C7 fails where the client rejects with a value that is not an [Error],
    here an object with a [message] property: the run fails with the fixed
    text, not with that message. *)
Lemma rejection_with_a_non_error :
  let w := initial (Fixture.getInputMockFn "create_issue") in
  let refusal := ThrowValue (VObj {[ "message" := VStr "socket hang up" ]}) in
  let P :=
    Fixture.platform
      {| Fixture.mockGetJson := Reject refusal;
         Fixture.mockPostJson := Reject refusal;
         Fixture.mockPutJson := Reject refusal |} in
  fst (@try_block P w) = Throw refusal
  ∧ outputs (snd (@run P w)) = [("status", VStr "error")]
  ∧ failures (snd (@run P w)) = ["An unknown error occurred"]
  ∧ failures (snd (@run P w)) ≠ ["socket hang up"].
Proof.
  intros w refusal P. split_and!; [vm_compute; reflexivity .. |].
  vm_compute. discriminate.
Qed.

(** C8 as amended, at the test "Adds a comment to a Jira issue
    successfully": the issue key is set, the issue id is not. *)
Lemma outputs_on_success_witness :
  let w := initial (Fixture.getInputMockFn "add_comment") in
  let P := Fixture.platform Fixture.allSucceed in
  @run_operation P w
  = (Normal {| issueKey := Some (VStr "PROJECT-123"); issueId := None;
               data := result Fixture.mockSuccessResponse |},
     snd (@run_operation P w))
  ∧ outputs (snd (@run P w))
    = [("status", VStr "success"); ("issue_key", VStr "PROJECT-123");
       ("response",
        VStr (template (Fixture.stringify (result Fixture.mockSuccessResponse))))]
  ∧ failures (snd (@run P w)) = [].
Proof.
  intros w P.
  assert (Hrun : @run_operation P w
                 = (Normal {| issueKey := Some (VStr "PROJECT-123");
                              issueId := None;
                              data := result Fixture.mockSuccessResponse |},
                    snd (@run_operation P w)))
    by (vm_compute; reflexivity).
  split; [exact Hrun|].
  destruct (@outputs_on_success P w _ _ Hrun) as (Houtputs & Hfailures & _).
  split; [|exact Hfailures].
  refine (eq_trans Houtputs _). vm_compute. reflexivity.
Defined.

(** C8 fails where [get_issue] is answered with a body whose id is the empty
    string: the result carries an issue id, yet no [issue_id] output is set,
    so this operation does not emit both outputs. *)
Lemma get_issue_with_empty_id :
  let w := initial (Fixture.getInputMockFn "get_issue") in
  let body := VObj {[ "id" := VStr "" ]} in
  let P :=
    Fixture.platform
      {| Fixture.mockGetJson := Resolve {| statusCode := 200; result := body |};
         Fixture.mockPostJson := Resolve Fixture.mockSuccessResponse;
         Fixture.mockPutJson := Resolve Fixture.mockSuccessResponse |} in
  fst (@run_operation P w)
  = Normal {| issueKey := Some (VStr "PROJECT-123"); issueId := Some (VStr "");
              data := body |}
  ∧ map fst (outputs (snd (@run P w))) = ["status"; "issue_key"; "response"]
  ∧ failures (snd (@run P w)) = [].
Proof. intros w body P. split_and!; vm_compute; reflexivity. Qed.

(** C9 at the test "Adds a comment to a Jira issue successfully". *)
Lemma add_comment_request_witness :
  let w := initial (Fixture.getInputMockFn "add_comment") in
  let P := Fixture.platform Fixture.allSucceed in
  let outcome :=
    @addComment P Fixture.client Fixture.baseUrl Fixture.headers w in
  (input w "issue_key" ≠ "" ∧ input w "comment" ≠ "")
  ∧ requests (snd outcome)
    = [(PostJson
          "https://your-domain.atlassian.net/rest/api/3/issue/PROJECT-123/comment"
          (VObj {[ "body" := VObj {[
             "type" := VStr "doc";
             "version" := VNum 1;
             "content" := VArr [
               VObj {[ "type" := VStr "paragraph";
                       "content" := VArr [
                         VObj {[ "type" := VStr "text";
                                 "text" := VStr "Test comment" ]} ] ]} ] ]} ]})
          Fixture.headers, Resolve Fixture.mockSuccessResponse)]
  ∧ fst outcome
    = Normal {| issueKey := Some (VStr "PROJECT-123"); issueId := None;
                data := result Fixture.mockSuccessResponse |}.
Proof.
  intros w P outcome.
  assert (Hkey : input w "issue_key" ≠ "") by (vm_compute; discriminate).
  assert (Hcomment : input w "comment" ≠ "") by (vm_compute; discriminate).
  split; [split; assumption|].
  destruct (@add_comment_request P Fixture.client Fixture.baseUrl
              Fixture.headers w Hkey Hcomment) as [Hlog Hresult].
  split; [exact Hlog|].
  refine (Hresult Fixture.mockSuccessResponse _ _).
  - vm_compute. reflexivity.
  - simpl. lia.
Defined.

(** C10 as amended, at an update whose read-back is answered with status 500
    and a body: the run still succeeds with the id of that body. *)
Lemma read_back_unchecked_witness :
  let w := initial (Fixture.getInputMockFn "update_issue") in
  let put := {| statusCode := 204; result := VNull |} in
  let got := {| statusCode := 500; result := VObj {[ "id" := VStr "10000" ]} |} in
  let P :=
    Fixture.platform
      {| Fixture.mockGetJson := Resolve got;
         Fixture.mockPostJson := Resolve Fixture.mockSuccessResponse;
         Fixture.mockPutJson := Resolve put |} in
  let url := "https://your-domain.atlassian.net/rest/api/3/issue/PROJECT-123" in
  let write :=
    PutJson url
      (VObj {[ "fields" := VObj {[ "description" := VStr "Test description" ]} ]})
      Fixture.headers in
  (input w "operation" = "update_issue" ∨ input w "operation" = "transition_issue")
  ∧ requests (snd (@run P w))
    = [(write, Resolve put); (GetJson url Fixture.headers, Resolve got)]
  ∧ nullish (result got) = false
  ∧ (∃ w1, @run_operation P w
           = (Normal {| issueKey := Some (VStr "PROJECT-123");
                        issueId := Some (VStr "10000");
                        data := result got |}, w1))
  ∧ failures (snd (@run P w)) = []
  ∧ ∃ more, outputs (snd (@run P w)) = ("status", VStr "success") :: more.
Proof.
  intros w put got P url write.
  assert (Hop : input w "operation" = "update_issue"
                ∨ input w "operation" = "transition_issue")
    by (left; vm_compute; reflexivity).
  assert (Hlog : requests (snd (@run P w))
                 = requests w
                   ++ [(write, Resolve put); (GetJson url Fixture.headers, Resolve got)])
    by (vm_compute; reflexivity).
  assert (Hbody : nullish (result got) = false) by reflexivity.
  split; [exact Hop|]. split; [exact Hlog|]. split; [exact Hbody|].
  exact (@read_back_unchecked P w _ _ _ _ Hop Hlog Hbody).
Defined.

(** C10 fails where the read-back is answered with a null body, as a 404
    is: reading its id throws, and the run reports an error. *)
Lemma update_issue_null_read_back :
  let w := initial (Fixture.getInputMockFn "update_issue") in
  let put := {| statusCode := 204; result := VNull |} in
  let got := {| statusCode := 404; result := VNull |} in
  let P :=
    Fixture.platform
      {| Fixture.mockGetJson := Resolve got;
         Fixture.mockPostJson := Resolve Fixture.mockSuccessResponse;
         Fixture.mockPutJson := Resolve put |} in
  map snd (requests (snd (@run P w))) = [Resolve put; Resolve got]
  ∧ fst (@run_operation P w)
    = Throw (ThrowError (@new_Error P
        "Cannot read properties of null (reading 'id')"))
  ∧ outputs (snd (@run P w)) = [("status", VStr "error")]
  ∧ failures (snd (@run P w)) = ["Cannot read properties of null (reading 'id')"].
Proof. intros w put got P. split_and!; vm_compute; reflexivity. Qed.

(** ** The further properties at inputs of the test suite *)

(** X1 without the [jira_email] input. *)
Lemma missing_connection_input_witness :
  let w := initial (delete "jira_email" (Fixture.getInputMockFn "create_issue")) in
  let P := Fixture.platform Fixture.allSucceed in
  first_missing connection_inputs w = Some "jira_email"
  ∧ requests (snd (@run P w)) = []
  ∧ outputs (snd (@run P w)) = [("status", VStr "error")]
  ∧ failures (snd (@run P w)) = ["Input required and not supplied: jira_email"].
Proof.
  intros w P.
  assert (Hmissing : first_missing connection_inputs w = Some "jira_email")
    by (vm_compute; reflexivity).
  split; [exact Hmissing|].
  exact (proj2 (@missing_connection_input P w _ Hmissing)).
Defined.

(** X2 for [transition_issue] without the [transition_id] input. *)
Lemma missing_operation_input_witness :
  let w := initial (delete "transition_id" (Fixture.getInputMockFn "transition_issue")) in
  let P := Fixture.platform Fixture.allSucceed in
  first_missing (required_inputs "transition_issue") w = Some "transition_id"
  ∧ @dispatch P "transition_issue" Fixture.client Fixture.baseUrl Fixture.headers w
    = (Throw (ThrowError (@new_Error P
         "Input required and not supplied: transition_id")), w).
Proof.
  intros w P.
  assert (Hmissing : first_missing (required_inputs "transition_issue") w
                     = Some "transition_id")
    by (vm_compute; reflexivity).
  split; [exact Hmissing|].
  exact (@missing_operation_input P "transition_issue" Fixture.client
           Fixture.baseUrl Fixture.headers w _ Hmissing).
Defined.

(** X4 at the test "Gets a Jira issue successfully": one call. *)
Lemma at_most_two_calls_witness :
  let w := initial (Fixture.getInputMockFn "get_issue") in
  let P := Fixture.platform Fixture.allSucceed in
  (input w "operation" ≠ "update_issue" ∧ input w "operation" ≠ "transition_issue")
  ∧ ∃ calls,
      requests (snd (@run P w)) = requests w ++ calls ∧ (length calls ≤ 1)%nat.
Proof.
  intros w P.
  assert (Hupdate : input w "operation" ≠ "update_issue")
    by (vm_compute; discriminate).
  assert (Htransition : input w "operation" ≠ "transition_issue")
    by (vm_compute; discriminate).
  split; [split; assumption|].
  destruct (@at_most_two_calls P w) as (calls & Hlog & _ & Hone).
  exists calls. split; [exact Hlog|]. exact (Hone Hupdate Htransition).
Defined.

(** X5 at the read-back of the test "Updates a Jira issue successfully", with
    a client that writes into the headers object as the client library does:
    the PUT is sent with the two headers of [run], the GET with the four the
    PUT left. *)
Lemma calls_of_a_run_witness :
  let w := initial (Fixture.getInputMockFn "update_issue") in
  let P := Fixture.writing_platform Fixture.allSucceed in
  let url := "https://your-domain.atlassian.net/rest/api/3/issue/PROJECT-123" in
  let write :=
    PutJson url
      (VObj {[ "fields" := VObj {[ "description" := VStr "Test description" ]} ]})
      Fixture.headers in
  let before := [(write, Resolve Fixture.mockSuccessResponse)] in
  let request :=
    GetJson url
      (<["accept" := "application/json"]>
         (<["content-type" := "application/json"]> Fixture.headers)) in
  requests (snd (@run P w))
  = requests w ++ before ++ (request, Resolve Fixture.mockSuccessResponse) :: []
  ∧ (∃ path, url_of request = base_of w +:+ "/rest/api/3/" +:+ path)
  ∧ headers_of request = @headers_after P (client_of w) (requests w) write
  ∧ headers_of write = default_headers.
Proof.
  intros w P url write before request.
  assert (Hlog : requests (snd (@run P w))
                 = requests w ++ before
                   ++ (request, Resolve Fixture.mockSuccessResponse) :: [])
    by (vm_compute; reflexivity).
  split; [exact Hlog|].
  destruct (@calls_of_a_run P w _ _ _ _ Hlog) as (Hurl & Hheaders & Hprevious).
  split; [exact Hurl|]. split; [exact Hheaders|].
  destruct (Hprevious write (Resolve Fixture.mockSuccessResponse) [] eq_refl)
    as (_ & Hfirst & _).
  exact Hfirst.
Defined.

(** X6 where the GET of [get_issue] is rejected by the network. *)
Lemma rejected_call_ends_the_run_witness :
  let w := initial (Fixture.getInputMockFn "get_issue") in
  let refusal := ThrowError {| message := "connect ECONNREFUSED"; stack := "" |} in
  let P :=
    Fixture.platform
      {| Fixture.mockGetJson := Reject refusal;
         Fixture.mockPostJson := Reject refusal;
         Fixture.mockPutJson := Reject refusal |} in
  let request :=
    GetJson "https://your-domain.atlassian.net/rest/api/3/issue/PROJECT-123"
      Fixture.headers in
  requests (snd (@run P w)) = requests w ++ [] ++ (request, Reject refusal) :: []
  ∧ outputs (snd (@run P w)) = [("status", VStr "error")]
  ∧ failures (snd (@run P w)) = ["connect ECONNREFUSED"].
Proof.
  intros w refusal P request.
  assert (Hlog : requests (snd (@run P w))
                 = requests w ++ [] ++ (request, Reject refusal) :: [])
    by (vm_compute; reflexivity).
  split; [exact Hlog|].
  exact (proj2 (@rejected_call_ends_the_run P w _ _ _ _ Hlog)).
Defined.

(** X7 at the test "Gets a Jira project successfully". *)
Lemma success_reports_last_body_witness :
  let w := initial (Fixture.getInputMockFn "get_project") in
  let P := Fixture.platform Fixture.allSucceed in
  let more :=
    [("response",
      VStr (template (Fixture.stringify (result Fixture.mockSuccessResponse))))] in
  outputs (snd (@run P w)) = outputs w ++ ("status", VStr "success") :: more
  ∧ ∃ before request response,
      requests (snd (@run P w))
      = requests w ++ before ++ [(request, Resolve response)]
      ∧ last more
        = Some ("response",
                match Fixture.stringify (result response) with
                | Some s => VStr s
                | None => VUndefined
                end).
Proof.
  intros w P more.
  assert (Hsuccess : outputs (snd (@run P w))
                     = outputs w ++ ("status", VStr "success") :: more)
    by (vm_compute; reflexivity).
  split; [exact Hsuccess|].
  destruct (@success_reports_last_body P w more Hsuccess)
    as (before & request & response & Hlog & _ & _ & Hlast).
  exists before, request, response. split; [exact Hlog | exact Hlast].
Defined.

(** X8 with a base URL that ends with a slash. *)
Lemma trailing_slash_stripped_witness :
  let w :=
    initial (<["jira_base_url" := "https://your-domain.atlassian.net/"]>
               (Fixture.getInputMockFn "get_issue")) in
  let P := Fixture.platform Fixture.allSucceed in
  first_missing connection_inputs w = None
  ∧ input w "jira_base_url" = "https://your-domain.atlassian.net" +:+ "/"
  ∧ @run_operation P w
    = @dispatch P "get_issue" (client_of w) "https://your-domain.atlassian.net"
        default_headers w.
Proof.
  intros w P.
  assert (Hsupplied : first_missing connection_inputs w = None)
    by (vm_compute; reflexivity).
  assert (Hurl : input w "jira_base_url"
                 = "https://your-domain.atlassian.net" +:+ "/")
    by (vm_compute; reflexivity).
  split; [exact Hsupplied|]. split; [exact Hurl|].
  destruct (@trailing_slash_stripped P w Hsupplied) as (baseUrl & Hrun & Hslash & _).
  rewrite <- (Hslash _ Hurl). exact Hrun.
Defined.

(** X9 at the test "Creates a Jira issue successfully". *)
Lemma create_issue_result_witness :
  let w := initial (Fixture.getInputMockFn "create_issue") in
  let P := Fixture.platform Fixture.allSucceed in
  let outcome := @createIssue P Fixture.client Fixture.baseUrl Fixture.headers w in
  let request :=
    PostJson "https://your-domain.atlassian.net/rest/api/3/issue"
      (VObj {[ "fields" := VObj
         {[ "description" := VStr "Test description";
            "project" := VObj {[ "key" := VStr "PROJECT" ]};
            "issuetype" := VObj {[ "name" := VStr "Bug" ]};
            "summary" := VStr "Test issue" ]} ]})
      Fixture.headers in
  requests (snd outcome)
  = requests w ++ [(request, Resolve Fixture.mockSuccessResponse)]
  ∧ 200 ≤ statusCode Fixture.mockSuccessResponse < 300
  ∧ nullish (result Fixture.mockSuccessResponse) = false
  ∧ fst outcome
    = Normal {| issueKey := Some (VStr "PROJECT-123");
                issueId := Some (VStr "10000");
                data := result Fixture.mockSuccessResponse |}.
Proof.
  intros w P outcome request.
  assert (Hrun : outcome = (fst outcome, snd outcome)) by (vm_compute; reflexivity).
  assert (Hlog : requests (snd outcome)
                 = requests w ++ [(request, Resolve Fixture.mockSuccessResponse)])
    by (vm_compute; reflexivity).
  assert (Hrange : 200 ≤ statusCode Fixture.mockSuccessResponse < 300)
    by (simpl; lia).
  assert (Hbody : nullish (result Fixture.mockSuccessResponse) = false)
    by reflexivity.
  split; [exact Hlog|]. split; [exact Hrange|]. split; [exact Hbody|].
  destruct (@create_issue_result P Fixture.client Fixture.baseUrl Fixture.headers
              w _ _ _ _ Hrun Hlog) as (Hresult & _).
  refine (eq_trans (Hresult Hrange Hbody) _). vm_compute. reflexivity.
Defined.

(** X10 at the test "Gets a Jira issue successfully". *)
Lemma get_issue_request_witness :
  let w := initial (Fixture.getInputMockFn "get_issue") in
  let P := Fixture.platform Fixture.allSucceed in
  let outcome := @getIssue P Fixture.client Fixture.baseUrl Fixture.headers w in
  input w "issue_key" ≠ ""
  ∧ requests (snd outcome)
    = [(GetJson "https://your-domain.atlassian.net/rest/api/3/issue/PROJECT-123"
          Fixture.headers, Resolve Fixture.mockSuccessResponse)]
  ∧ fst outcome
    = Normal {| issueKey := Some (VStr "PROJECT-123");
                issueId := Some (VStr "10000");
                data := result Fixture.mockSuccessResponse |}.
Proof.
  intros w P outcome.
  assert (Hkey : input w "issue_key" ≠ "") by (vm_compute; discriminate).
  split; [exact Hkey|].
  destruct (@get_issue_request P Fixture.client Fixture.baseUrl Fixture.headers
              w Hkey) as (Hlog & _ & Hresolved).
  split; [exact Hlog|].
  destruct (Hresolved Fixture.mockSuccessResponse eq_refl) as [Haccepted _].
  refine (eq_trans (Haccepted _ _) _).
  - simpl. lia.
  - reflexivity.
  - vm_compute. reflexivity.
Defined.

(** X11 where the project is answered with status 200 and a null body. *)
Lemma get_project_request_witness :
  let w := initial (Fixture.getInputMockFn "get_project") in
  let empty := {| statusCode := 200; result := VNull |} in
  let P :=
    Fixture.platform
      {| Fixture.mockGetJson := Resolve empty;
         Fixture.mockPostJson := Resolve empty;
         Fixture.mockPutJson := Resolve empty |} in
  let outcome := @getProject P Fixture.client Fixture.baseUrl Fixture.headers w in
  input w "project_key" ≠ ""
  ∧ requests (snd outcome)
    = [(GetJson "https://your-domain.atlassian.net/rest/api/3/project/PROJECT"
          Fixture.headers, Resolve empty)]
  ∧ fst outcome = Normal {| issueKey := None; issueId := None; data := VNull |}.
Proof.
  intros w empty P outcome.
  assert (Hkey : input w "project_key" ≠ "") by (vm_compute; discriminate).
  split; [exact Hkey|].
  destruct (@get_project_request P Fixture.client Fixture.baseUrl Fixture.headers
              w Hkey) as (Hlog & _ & Hresolved).
  split; [exact Hlog|].
  destruct (Hresolved empty eq_refl) as [Haccepted _].
  refine (Haccepted _). simpl. lia.
Defined.

(** X12 at the test "Transitions a Jira issue successfully". *)
Lemma transition_issue_request_witness :
  let w := initial (Fixture.getInputMockFn "transition_issue") in
  let P := Fixture.platform Fixture.allSucceed in
  (input w "issue_key" ≠ "" ∧ input w "transition_id" ≠ "")
  ∧ ∃ more,
      requests (snd (@transitionIssue P Fixture.client Fixture.baseUrl
                       Fixture.headers w))
      = (PostJson
           "https://your-domain.atlassian.net/rest/api/3/issue/PROJECT-123/transitions"
           (VObj {[ "transition" := VObj {[ "id" := VStr "31" ]} ]})
           Fixture.headers, Resolve Fixture.mockSuccessResponse) :: more.
Proof.
  intros w P.
  assert (Hkey : input w "issue_key" ≠ "") by (vm_compute; discriminate).
  assert (Hid : input w "transition_id" ≠ "") by (vm_compute; discriminate).
  split; [split; assumption|].
  exact (@transition_issue_request P Fixture.client Fixture.baseUrl
           Fixture.headers w Hkey Hid).
Defined.

(** X13 at an update with neither description nor [fields_json]. *)
Lemma update_issue_body_witness :
  let w := initial (delete "description" (Fixture.getInputMockFn "update_issue")) in
  let P := Fixture.platform Fixture.allSucceed in
  (input w "issue_key" ≠ "" ∧ input w "fields_json" = ""
   ∧ input w "description" = "")
  ∧ ∃ reply more,
      requests (snd (@updateIssue P Fixture.client Fixture.baseUrl
                       Fixture.headers w))
      = (PutJson "https://your-domain.atlassian.net/rest/api/3/issue/PROJECT-123"
           (VObj {[ "fields" := VObj ∅ ]}) Fixture.headers, reply) :: more.
Proof.
  intros w P.
  assert (Hkey : input w "issue_key" ≠ "") by (vm_compute; discriminate).
  assert (Hempty : input w "fields_json" = "") by (vm_compute; reflexivity).
  assert (Hdescription : input w "description" = "") by (vm_compute; reflexivity).
  split; [split_and!; assumption|].
  destruct (@update_issue_body P Fixture.client Fixture.baseUrl Fixture.headers
              w ∅ Hkey (or_introl (conj Hempty eq_refl)))
    as ((reply & more & Hlog) & Hnone).
  exists reply, more. rewrite <- (Hnone Hdescription Hempty). exact Hlog.
Defined.

(** X14 at the inputs of the test "Creates a version in Jira successfully",
    without a start date. *)
Lemma create_version_body_witness :
  let w :=
    initial (<["project_id" := "10000"]> (<["version_name" := "v1.0.0"]>
            (<["version_description" := "First version"]>
            (<["version_release_date" := "2025-07-31"]>
            (Fixture.getInputMockFn "create_version"))))) in
  let P := Fixture.platform Fixture.allSucceed in
  (input w "project_id" ≠ "" ∧ input w "version_name" ≠ "")
  ∧ ∃ body reply,
      requests (snd (@createVersion P Fixture.client Fixture.baseUrl
                       Fixture.headers w))
      = [(PostJson "https://your-domain.atlassian.net/rest/api/3/version"
            (VObj body) Fixture.headers, reply)]
      ∧ body !! "name" = Some (VStr "v1.0.0")
      ∧ body !! "description" = Some (VStr "First version")
      ∧ body !! "startDate" = None
      ∧ body !! "releaseDate" = Some (VStr "2025-07-31").
Proof.
  intros w P.
  assert (Hproject : input w "project_id" ≠ "") by (vm_compute; discriminate).
  assert (Hname : input w "version_name" ≠ "") by (vm_compute; discriminate).
  split; [split; assumption|].
  destruct (@create_version_body P Fixture.client Fixture.baseUrl Fixture.headers
              w Hproject Hname)
    as (body & reply & Hlog & Hn & _ & Hd & Hs & Hr & _).
  exists body, reply. split; [exact Hlog|]. split_and!.
  - refine (eq_trans Hn _). vm_compute. reflexivity.
  - refine (eq_trans Hd _). vm_compute. reflexivity.
  - refine (eq_trans Hs _). vm_compute. reflexivity.
  - refine (eq_trans Hr _). vm_compute. reflexivity.
Defined.

(** X15 for [create_issue] with a [fields_json] that does not parse: the
    network is not reached. *)
Lemma network_contacted_iff_witness :
  let w :=
    initial (<["fields_json" := "{invalid:json}"]>
               (Fixture.getInputMockFn "create_issue")) in
  let P := Fixture.platform Fixture.allSucceed in
  "create_issue" ∈ supported_operations
  ∧ ¬ ∃ call more,
        requests (snd (@dispatch P "create_issue" Fixture.client Fixture.baseUrl
                         Fixture.headers w))
        = requests w ++ call :: more.
Proof.
  intros w P.
  assert (Hop : "create_issue" ∈ supported_operations) by (unfold supported_operations; constructor).
  split; [exact Hop|].
  intros Hcalled.
  destruct (proj1 (@network_contacted_iff P "create_issue" Fixture.client
                     Fixture.baseUrl Fixture.headers w Hop) Hcalled)
    as [_ Hjson].
  destruct Hjson as [v Hv]; [by left | vm_compute; discriminate |].
  vm_compute in Hv. discriminate.
Defined.
